(** * synapse/handlers/room.py: the room-mutation handlers

    A shallow embedding of [MessageHandler], [RoomCreationHandler] and
    [RoomMemberHandler].  The handlers are Twisted [inlineCallbacks]
    generators: chains of calls to collaborators (storage, authorization,
    state reconciliation, federation, notifier, the per-room lock) with
    Python control flow in between.  A handler is embedded as a finite tree
    of collaborator calls ([Prog]); running the tree against an arbitrary
    implementation of the collaborators ([Collaborators]) yields an outcome,
    a final collaborator state and the ordered trace of the calls issued. *)

From Stdlib Require Import ZArith Ascii String.
From stdpp Require Import gmap strings list pretty.

Local Open Scope Z_scope.

(** ** Data model *)

(** JSON values stored in an event's [content] dict. *)
Inductive JVal : Type :=
| JStr (s : string)
| JInt (n : Z).

Global Instance JVal_eq_dec : EqDecision JVal.
Proof. solve_decision. Defined.

(** [==] on JSON values. *)
Definition jval_eqb (a b : JVal) : bool := bool_decide (a = b).

(** ["%s" % v] *)
Definition jval_str (v : JVal) : string :=
  match v with
  | JStr s => s
  | JInt n => pretty n
  end.

(** Exceptions.  [RoomError] and [StoreError] are the two classes room.py
    constructs and catches; the others are Python's own or a collaborator's. *)
Inductive Error : Type :=
| RoomError (code : Z) (msg : string)
| StoreError (code : Z) (msg : string)
| AuthError (code : Z) (msg : string)
| KeyError (key : string)
| AttributeError (name : string)
| OtherError (msg : string).

Definition is_StoreError (e : Error) : bool :=
  match e with
  | StoreError _ _ => true
  | _ => false
  end.

Inductive result (A : Type) : Type :=
| Ok (a : A)
| Exn (e : Error).
Arguments Ok {A} a.
Arguments Exn {A} e.

(** The generic event envelope.  Keyword arguments that were not given to
    the event factory are absent attributes ([None]). *)
Record Event : Type := mkEvent {
  etype : string;
  room_id : string;
  user_id : string;
  target_user_id : option string;
  membership : option string;
  msg_id : option string;
  content : gmap string JVal;
  destinations : list string
}.

Definition set_destinations (d : list string) (e : Event) : Event :=
  mkEvent (etype e) (room_id e) (user_id e) (target_user_id e) (membership e)
          (msg_id e) (content e) d.

Definition set_content (c : gmap string JVal) (e : Event) : Event :=
  mkEvent (etype e) (room_id e) (user_id e) (target_user_id e) (membership e)
          (msg_id e) c (destinations e).

Record Room : Type := mkRoom {
  r_room_id : string;
  is_public : bool;
  creator : string
}.

Record RoomMember : Type := mkRoomMember {
  m_user_id : string;
  m_room_id : string;
  m_membership : string;
  m_sender : string;
  m_content : gmap string JVal
}.

(** What [UserID.from_string] returns. *)
Record UserID : Type := mkUserID {
  localpart : string;
  domain : string;
  is_mine : bool
}.

(** Modelled from the spec: synapse.api.constants.Membership is defined
    outside room.py; the spec's membership states are none, invite, join
    and leave, and room.py compares them with the literals "invite" and
    "join". *)
Module Membership.
Definition INVITE : string := "invite".
Definition JOIN : string := "join".
Definition LEAVE : string := "leave".
End Membership.

(** ** Collaborator calls *)

(** One constructor for each collaborator method room.py calls. *)
Inductive Call : Type :=
| time_ms                                   (* int(time.time() * 1000) *)
| random_string (n : nat)                   (* stringutils.random_string *)
| room_lock_lock (room : string)            (* entering [with room_lock.lock] *)
| room_lock_release (room : string)         (* leaving the [with] block *)
| auth_check (event : Event)                (* auth.check(event, raises=True) *)
| persist_event (event : Event)
| get_joined_hosts_for_room (room : string)
| store_room (room creator : string) (public : bool)
| get_room (room : string)
| get_room_member (user room : string)
| store_room_member (user sender room : string)
                    (content : gmap string JVal) (membership : JVal)
| get_path_data (path : string)
| state_handle_new_event (event : Event)
| federation_handle_new_event (event : Event)
| federation_get_state_for_room (host room : string)
| notifier_on_new_event (event : Event) (store_id : nat).

Global Instance Event_eq_dec : EqDecision Event.
Proof. solve_decision. Defined.

Global Instance Call_eq_dec : EqDecision Call.
Proof. solve_decision. Defined.

(** The type of the value a call yields. *)
Definition Resp (c : Call) : Type :=
  match c with
  | time_ms => Z
  | random_string _ => string
  | persist_event _ => nat
  | get_joined_hosts_for_room _ => list string
  | get_room _ => option Room
  | get_room_member _ _ => option RoomMember
  | store_room_member _ _ _ _ _ => nat
  | get_path_data _ => option JVal
  | _ => unit
  end.

(** ** Handler programs *)

(** A handler: it returns, raises, or calls a collaborator and continues
    with what the call yielded or raised. *)
Inductive Prog (A : Type) : Type :=
| Ret (a : A)
| Raise (e : Error)
| Do (c : Call) (k : result (Resp c) -> Prog A).
Arguments Ret {A} a.
Arguments Raise {A} e.
Arguments Do {A} c k.

Fixpoint bind {A B : Type} (p : Prog A) (f : A -> Prog B) : Prog B :=
  match p with
  | Ret a => f a
  | Raise e => Raise e
  | Do c k => Do c (fun r => bind (k r) f)
  end.

Global Instance Prog_ret : MRet Prog := @Ret.
Global Instance Prog_bind : MBind Prog := fun A B f p => bind p f.

(** [yield collaborator.method(...)]: an exception of the callee propagates. *)
Definition call (c : Call) : Prog (Resp c) :=
  Do c (fun r => match r with Ok v => Ret v | Exn e => Raise e end).

(** [try: p  except <class>: h] for the errors selected by [catches]. *)
Fixpoint try_except {A : Type} (p : Prog A) (catches : Error -> bool)
         (h : Prog A) : Prog A :=
  match p with
  | Ret a => Ret a
  | Raise e => if catches e then h else Raise e
  | Do c k => Do c (fun r => try_except (k r) catches h)
  end.

(** Leaving a [with] block: the lock is released on every exit path. *)
Fixpoint releasing {A : Type} (room : string) (p : Prog A) : Prog A :=
  match p with
  | Ret a => Do (room_lock_release room) (fun _ => Ret a)
  | Raise e => Do (room_lock_release room) (fun _ => Raise e)
  | Do c k => Do c (fun r => releasing room (k r))
  end.

(** [with (yield self.room_lock.lock(room)): body] *)
Definition with_room_lock {A : Type} (room : string) (body : Prog A) : Prog A :=
  call (room_lock_lock room) ≫= fun _ => releasing room body.

(** [obj.name] for an attribute that may be absent. *)
Definition attr {A : Type} (name : string) (o : option A) : Prog A :=
  match o with
  | Some a => Ret a
  | None => Raise (AttributeError name)
  end.

(** [d[key]] *)
Definition getitem (d : gmap string JVal) (key : string) : Prog JVal :=
  match d !! key with
  | Some v => Ret v
  | None => Raise (KeyError key)
  end.

(** ** The collaborators *)

(** Modelled from the spec: the storage, authorization, state-reconciliation,
    federation and notifier objects, [stringutils.random_string] and the
    clock are defined outside room.py.  Their interface follows the spec's
    list of external interfaces: reads are pure, writes return the new
    collaborator state, and the calls the spec documents as failing
    ([store_room], the authorization check, state reconciliation and the two
    federation calls) may raise, leaving the state as it was.
    [random_string n] returns a string of length [n].  Nothing else is
    assumed about them. *)
Class Collaborators (S : Type) : Type := {
  time_ms_impl : S -> Z * S;
  random_string_impl : nat -> S -> string * S;
  random_string_length :
    forall n s, String.length (random_string_impl n s).1 = n;
  auth_check_impl : Event -> S -> option Error;
  persist_event_impl : Event -> S -> nat * S;
  get_joined_hosts_for_room_impl : string -> S -> list string;
  store_room_impl : string -> string -> bool -> S -> result S;
  get_room_impl : string -> S -> option Room;
  get_room_member_impl : string -> string -> S -> option RoomMember;
  store_room_member_impl :
    string -> string -> string -> gmap string JVal -> JVal -> S -> nat * S;
  get_path_data_impl : string -> S -> option JVal;
  state_handle_new_event_impl : Event -> S -> result S;
  federation_handle_new_event_impl : Event -> S -> result S;
  federation_get_state_for_room_impl : string -> string -> S -> result S;
  notifier_on_new_event_impl : Event -> nat -> S -> S
}.

(** The event type tags of synapse.api.events.room and the [UserID] helpers
    of synapse.types are defined outside room.py and taken as parameters.
    So is the order Python's [list(set(l))] leaves: [list_set l] has the
    elements of [l], each once, in an order that depends on the hashes of
    the strings and of which nothing else is known. *)
Class Externals : Type := {
  RoomTopicEvent_TYPE : string;
  MessageEvent_TYPE : string;
  InviteJoinEvent_TYPE : string;
  RoomMemberEvent_TYPE : string;
  UserID_from_string : string -> result UserID;
  UserID_to_string : UserID -> string;
  UserID_str : UserID -> string;
  list_set : list string -> list string;
  list_set_NoDup : forall l, NoDup (list_set l);
  list_set_elem_of : forall l x, x ∈ list_set l <-> x ∈ l
}.

(** ** Running a handler *)

Inductive Outcome (A : Type) : Type :=
| Returned (a : A)
| Raised (e : Error)
| Deadlock.
Arguments Returned {A} a.
Arguments Raised {A} e.
Arguments Deadlock {A}.

(** The collaborators' state, the rooms whose lock is held, and the calls
    issued so far, oldest first, each with the locks that were held when it
    was issued. *)
Record World (S : Type) : Type := mkWorld {
  env : S;
  held : list string;
  trace : list (Call * list string)
}.
Arguments mkWorld {S} env held trace.
Arguments env {S} w.
Arguments held {S} w.
Arguments trace {S} w.

Definition is_held (room : string) (held : list string) : bool :=
  existsb (String.eqb room) held.

Definition unhold (room : string) (held : list string) : list string :=
  List.filter (fun r => negb (String.eqb room r)) held.

(** A write that may raise: the state changes only when it goes through. *)
Definition lift_write {S : Type} (held : list string) (r : result S) (s : S)
  : option (result unit * S * list string) :=
  match r with
  | Ok s' => Some (Ok tt, s', held)
  | Exn e => Some (Exn e, s, held)
  end.

(** One call against the collaborators: what it yields, the new collaborator
    state and the new set of held locks, or [None] when the call cannot
    proceed: the lock is not reentrant, and taking the lock of a room whose
    lock is held never returns. *)
Definition respond {S : Type} {CO : Collaborators S} (c : Call) (s : S)
           (held : list string) : option (result (Resp c) * S * list string) :=
  match c return option (result (Resp c) * S * list string) with
  | time_ms => let '(t, s') := time_ms_impl s in Some (Ok t, s', held)
  | random_string n =>
      let '(x, s') := random_string_impl n s in Some (Ok x, s', held)
  | room_lock_lock room =>
      if is_held room held then None else Some (Ok tt, s, room :: held)
  | room_lock_release room => Some (Ok tt, s, unhold room held)
  | auth_check event =>
      match auth_check_impl event s with
      | None => Some (Ok tt, s, held)
      | Some e => Some (Exn e, s, held)
      end
  | persist_event event =>
      let '(n, s') := persist_event_impl event s in Some (Ok n, s', held)
  | get_joined_hosts_for_room room =>
      Some (Ok (get_joined_hosts_for_room_impl room s), s, held)
  | store_room room creator public =>
      lift_write held (store_room_impl room creator public s) s
  | get_room room => Some (Ok (get_room_impl room s), s, held)
  | get_room_member user room =>
      Some (Ok (get_room_member_impl user room s), s, held)
  | store_room_member user sender room content membership =>
      let '(n, s') :=
        store_room_member_impl user sender room content membership s in
      Some (Ok n, s', held)
  | get_path_data path => Some (Ok (get_path_data_impl path s), s, held)
  | state_handle_new_event event =>
      lift_write held (state_handle_new_event_impl event s) s
  | federation_handle_new_event event =>
      lift_write held (federation_handle_new_event_impl event s) s
  | federation_get_state_for_room host room =>
      lift_write held (federation_get_state_for_room_impl host room s) s
  | notifier_on_new_event event store_id =>
      Some (Ok tt, notifier_on_new_event_impl event store_id s, held)
  end.

(** Run a handler to completion.  Every call is appended to the trace when
    it is issued, also when it then raises or blocks. *)
Fixpoint run {S A : Type} {CO : Collaborators S} (p : Prog A) (w : World S)
  : Outcome A * World S :=
  match p with
  | Ret a => (Returned a, w)
  | Raise e => (Raised e, w)
  | Do c k =>
      match respond c (env w) (held w) with
      | None => (Deadlock, mkWorld (env w) (held w) (trace w ++ [(c, held w)]))
      | Some (r, s', held') =>
          run (k r) (mkWorld s' held' (trace w ++ [(c, held w)]))
      end
  end.

(** A fresh invocation: no lock held, nothing issued yet. *)
Definition start {S : Type} (s : S) : World S := mkWorld s [] [].

(** ** Concurrent invocations

    Execution is single-threaded and cooperative: an invocation runs until
    its next [yield], where any invocation may go on. *)

(** An invocation in flight: what is left of it and the locks it holds. *)
Record Task : Type := mkTask {
  task_prog : Prog Event;
  task_held : list string
}.

Record Pool (S : Type) : Type := mkPool {
  tasks : list Task;
  shared : S
}.
Arguments mkPool {S} tasks shared.
Arguments tasks {S} p.
Arguments shared {S} p.

(** The locks held by any invocation. *)
Fixpoint all_held (ts : list Task) : list string :=
  match ts with
  | [] => []
  | t :: ts => task_held t ++ all_held ts
  end.

(** The locks an invocation holds after a call of its own. *)
Definition after_call (c : Call) (held : list string) : list string :=
  match c with
  | room_lock_lock room => room :: held
  | room_lock_release room => unhold room held
  | _ => held
  end.

(** Modelled from the spec: the per-room lock (synapse.util) and the reactor
    that schedules the handlers are defined outside room.py.  Invocation [i]
    makes its next call against the shared collaborators; [lock(room)]
    suspends the caller while an acquisition for the same room is held by
    any invocation, and callers for other rooms are not affected.  [None]
    when the invocation has finished or is suspended. *)
Definition step {S : Type} {CO : Collaborators S} (i : nat) (p : Pool S)
  : option (Pool S) :=
  match tasks p !! i with
  | Some (mkTask (Do c k) h) =>
      match respond c (shared p) (all_held (tasks p)) with
      | Some (r, s', _) =>
          Some (mkPool (<[i := mkTask (k r) (after_call c h)]> (tasks p)) s')
      | None => None
      end
  | _ => None
  end.

Inductive reachable {S : Type} {CO : Collaborators S} (p0 : Pool S)
  : Pool S -> Prop :=
| reachable_start : reachable p0 p0
| reachable_step p i p' :
    reachable p0 p -> step i p = Some p' -> reachable p0 p'.

(** The call invocation [j] is about to make, if it is not finished. *)
Definition pending {S : Type} (p : Pool S) (j : nat) : option Call :=
  match tasks p !! j with
  | Some (mkTask (Do c _) _) => Some c
  | _ => None
  end.


(** The invocations of a schedule make their next call one after the
    other. *)
Fixpoint run_schedule {S : Type} {CO : Collaborators S} (schedule : list nat)
         (p : Pool S) : option (Pool S) :=
  match schedule with
  | [] => Some p
  | i :: schedule =>
      match step i p with
      | Some p' => run_schedule schedule p'
      | None => None
      end
  end.

(** The room whose persisted state a call reads or writes as part of a
    critical section: authorization, state reconciliation, persisting and
    the computation of the destinations. *)
Definition critical_room (c : Call) : option string :=
  match c with
  | auth_check event => Some (room_id event)
  | state_handle_new_event event => Some (room_id event)
  | persist_event event => Some (room_id event)
  | store_room_member _ _ room _ _ => Some room
  | get_joined_hosts_for_room room => Some room
  | _ => None
  end.









(** ** The handlers of room.py *)

Section Handlers.
Context {EXT : Externals}.

(** Modelled from the spec: [event_factory.create_event(etype=..., **kwargs)]
    belongs to the event factory, an external collaborator that "constructs
    typed event objects"; it builds the envelope from the keyword arguments
    it is given and has no other effect. *)
Definition create_event (etype room_id user_id : string)
           (target_user_id membership msg_id : option string)
           (content : gmap string JVal) : Event :=
  mkEvent etype room_id user_id target_user_id membership msg_id content [].

(** [def stamp(event)] *)
Definition stamp (event : Event) : Prog Event :=
  now ← call time_ms;
  mret (set_content (<["hsob_ts" := JInt now]> (content event)) event).

(** [MessageHandler.send_message].  The handler mutates [event] in place;
    the embedding returns the event as the handler leaves it. *)
Definition send_message (event : Event) (suppress_auth stamp_event : bool)
  : Prog Event :=
  event ← (if stamp_event then stamp event else mret event);
  with_room_lock (room_id event) (
    (if negb suppress_auth then call (auth_check event) else mret tt) ;;
    (* store message in db *)
    store_id ← call (persist_event event);
    hosts ← call (get_joined_hosts_for_room (room_id event));
    let event := set_destinations hosts event in
    call (federation_handle_new_event event) ;;
    call (notifier_on_new_event event store_id) ;;
    mret event).

(** [MessageHandler.send_feedback] *)
Definition send_feedback (event : Event) (stamp_event : bool) : Prog Event :=
  event ← (if stamp_event then stamp event else mret event);
  '(event, store_id) ← with_room_lock (room_id event) (
    call (auth_check event) ;;
    (* store message in db *)
    store_id ← call (persist_event event);
    hosts ← call (get_joined_hosts_for_room (room_id event));
    mret (set_destinations hosts event, store_id));
  call (federation_handle_new_event event) ;;
  call (notifier_on_new_event event store_id) ;;
  mret event.

(** [x in rules] for [x = member.membership if member else None]. *)
Definition state_in (member_state : option string) (rules : list string)
  : bool :=
  match member_state with
  | Some m => bool_decide (m ∈ rules)
  | None => false
  end.

(** Truthiness of a list. *)
Definition nonempty {A : Type} (l : list A) : bool :=
  match l with
  | [] => false
  | _ :: _ => true
  end.

(** Truthiness of an optional string argument. *)
Definition truthy (o : option string) : bool :=
  match o with
  | Some s => negb (String.eqb s "")
  | None => false
  end.

(** The private-room rules [get_room_path_data] goes on to apply. *)
Definition effective_private_rules (event_type : option string)
           (private_room_rules : option (list string)) : list string :=
  if bool_decide (event_type = Some RoomTopicEvent_TYPE)
  then (* anyone invited/joined can read the topic *) ["invite"; "join"]
  else default ["join"] private_room_rules.

(** [MessageHandler.get_room_path_data].  The two rule lists are keyword
    arguments: [None] stands for an argument left at its default,
    [public_room_rules=[]] and [private_room_rules=["join"]]. *)
Definition get_room_path_data (user_id : option string) (room_id path : string)
           (event_type : option string)
           (public_room_rules private_room_rules : option (list string))
  : Prog (option JVal) :=
  let public_room_rules := default [] public_room_rules in
  let private_room_rules :=
    effective_private_rules event_type private_room_rules in
  (* does this room exist *)
  room ← call (get_room room_id);
  match room with
  | None => Raise (RoomError 403 "Room does not exist.")
  | Some room =>
      (* does this user exist in this room *)
      member ← call (get_room_member
                       (if truthy user_id then default "" user_id else "")
                       room_id);
      let member_state := m_membership <$> member in
      (if is_public room && nonempty public_room_rules
       then
         (* make sure the user meets public room rules *)
         if negb (state_in member_state public_room_rules)
         then Raise (RoomError 403 "Member does not meet public room rules.")
         else mret tt
       else if negb (is_public room) && nonempty private_room_rules
       then
         (* make sure the user meets private room rules *)
         if negb (state_in member_state private_room_rules)
         then Raise (RoomError 403 "Member does not meet private room rules.")
         else mret tt
       else mret tt) ;;
      call (get_path_data path)
  end.

(** A [result] computed without yielding. *)
Definition lift_result {A : Type} (r : result A) : Prog A :=
  match r with
  | Ok a => Ret a
  | Exn e => Raise e
  end.

(** [RoomMemberHandler._inject_membership_msg] *)
Definition _inject_membership_msg (room_id source target : string)
           (membership : JVal) : Prog unit :=
  body ← (if jval_eqb membership (JStr Membership.INVITE)
          then mret (source +:+ " invited " +:+ target +:+ " to the room.")
          else if jval_eqb membership (JStr Membership.JOIN)
          then mret (target +:+ " joined the room.")
          else if jval_eqb membership (JStr Membership.LEAVE)
          then mret (target +:+ " left the room.")
          else Raise (RoomError 500 ("Unknown membership value "
                                     +:+ jval_str membership)));
  let membership_json : gmap string JVal :=
    <["msgtype" := JStr "sy.text"]> (<["body" := JStr body]> ∅) in
  now ← call time_ms;
  let msg_id := "m" +:+ pretty now in
  let event :=
    create_event MessageEvent_TYPE room_id "_homeserver_"
                 None None (Some msg_id) membership_json in
  send_message event true true ;;
  mret tt.

(** The inner [_do_membership_update] of [change_membership]; [event] is the
    enclosing handler's event, returned with its [destinations] set. *)
Definition _do_membership_update (event : Event) : Prog (Event * nat) :=
  (* store membership *)
  target ← attr "target_user_id" (target_user_id event);
  m ← getitem (content event) "membership";
  store_id ← call (store_room_member target (user_id event) (room_id event)
                                     (content event) m);
  (* Send a PDU to all hosts who have joined the room. *)
  destinations ← call (get_joined_hosts_for_room (room_id event));
  (* If we're inviting someone, then we should also send it to that HS. *)
  m ← getitem (content event) "membership";
  destinations ← (if jval_eqb m (JStr Membership.INVITE)
                  then target ← attr "target_user_id" (target_user_id event);
                       u ← lift_result (UserID_from_string target);
                       mret (destinations ++ [domain u])
                  else mret destinations);
  (* If we are joining a remote HS, include that. *)
  m ← getitem (content event) "membership";
  destinations ← (if jval_eqb m (JStr Membership.JOIN)
                  then target ← attr "target_user_id" (target_user_id event);
                       u ← lift_result (UserID_from_string target);
                       mret (destinations ++ [domain u])
                  else mret destinations);
  mret (set_destinations (list_set destinations) event, store_id).

(** The local variables the JOIN branch of [change_membership] still uses
    after its [with] block. *)
Record JoinLocals : Type := mkJoinLocals {
  jl_event : Event;
  is_remote_invite_join : bool;
  jl_inviter : option UserID;
  jl_store_id : option nat
}.

(** Reading a local variable that is bound on some paths only. *)
Definition local {A : Type} (name : string) (o : option A) : Prog A :=
  match o with
  | Some a => Ret a
  | None => Raise (OtherError ("UnboundLocalError: " +:+ name))
  end.

(** [RoomMemberHandler.change_membership], returning the event as the
    handler leaves it. *)
Definition change_membership (event : Event) (broadcast_msg do_auth : bool)
  : Prog Event :=
  m ← attr "membership" (membership event);
  event ← (
    (* If we're trying to join a room then we have to do this differently
       if this HS is not currently in the room, i.e. we have to do the
       invite/join dance. *)
    if String.eqb m Membership.JOIN then
      l ← with_room_lock (room_id event) (
        (if do_auth then call (auth_check event) else mret tt) ;;
        target ← attr "target_user_id" (target_user_id event);
        prev_state ← call (get_room_member target (room_id event));
        (* Only do an invite join dance if a) we were invited, b) the person
           inviting was from a differnt HS and c) we are not currently in
           the room *)
        '(dance, inviter) ← (
          match prev_state with
          | Some prev =>
              if String.eqb (m_membership prev) Membership.INVITE then
                room ← call (get_room (room_id event));
                inviter ← lift_result (UserID_from_string (m_sender prev));
                mret (negb (is_mine inviter) && negb (bool_decide (is_Some room)),
                      Some inviter)
              else mret (false, None)
          | None => mret (false, None)
          end);
        (* We want to do the _do_update inside the room lock. *)
        if negb dance then
          call (state_handle_new_event event) ;;
          '(event, store_id) ← _do_membership_update event;
          mret (mkJoinLocals event dance inviter (Some store_id))
        else mret (mkJoinLocals event dance inviter None));
      (* We don't want to send out the event notifs inside the room lock. *)
      let event := jl_event l in
      if negb (is_remote_invite_join l) then
        store_id ← local "store_id" (jl_store_id l);
        call (federation_handle_new_event event) ;;
        call (notifier_on_new_event event store_id) ;;
        mret event
      else
        inviter ← local "inviter" (jl_inviter l);
        call (store_room (room_id event) (UserID_str inviter) false) ;;
        (* do invite join dance *)
        let new_event :=
          create_event InviteJoinEvent_TYPE (room_id event) (user_id event)
                       (Some (UserID_to_string inviter)) None None ∅ in
        let new_event := set_destinations [domain inviter] new_event in
        call (federation_handle_new_event new_event) ;;
        call (federation_get_state_for_room (domain inviter) (room_id event)) ;;
        mret event
    else
      (* This is not a JOIN, so we can handle it normally. *)
      '(event, store_id) ← with_room_lock (room_id event) (
        (if do_auth then call (auth_check event) else mret tt) ;;
        call (state_handle_new_event event) ;;
        _do_membership_update event);
      call (federation_handle_new_event event) ;;
      call (notifier_on_new_event event store_id) ;;
      mret event);
  (if broadcast_msg then
     target ← attr "target_user_id" (target_user_id event);
     membership ← getitem (content event) "membership";
     _inject_membership_msg (room_id event) (user_id event) target membership
   else mret tt) ;;
  mret event.

(** The [while attempts < 5] loop of [create_room]; [fuel] bounds the
    iterations left and is 5 at the call. *)
Fixpoint generate_room_id (fuel attempts : nat) (user_id : string)
         (config : gmap string JVal) : Prog (option string) :=
  match fuel with
  | O => mret None
  | S fuel =>
      if (attempts <? 5)%nat then
        try_except (
          gen_room_id ← call (random_string 18);
          visibility ← getitem config "visibility";
          call (store_room gen_room_id user_id
                           (jval_eqb visibility (JStr "public"))) ;;
          mret (Some gen_room_id))
        is_StoreError
        (generate_room_id fuel (S attempts) user_id config)
      else mret None
  end.

(** [RoomCreationHandler.create_room] *)
Definition create_room (user_id : string) (room_id : option string)
           (config : gmap string JVal) : Prog string :=
  room_id ← (
    if truthy room_id then
      let room_id := default "" room_id in
      visibility ← getitem config "visibility";
      call (store_room room_id user_id (jval_eqb visibility (JStr "public"))) ;;
      mret room_id
    else
      (* autogen room IDs and try to create it. We may clash, so just
         try a few times till one goes through, giving up eventually. *)
      room_id ← generate_room_id 5 0 user_id config;
      if negb (truthy room_id)
      then Raise (StoreError 500 "Couldn't generate a room ID.")
      else mret (default "" room_id));
  let content : gmap string JVal :=
    <["membership" := JStr Membership.JOIN]> ∅ in
  let join_event :=
    create_event RoomMemberEvent_TYPE room_id user_id
                 (Some user_id) (Some Membership.JOIN) None content in
  change_membership join_event true false ;;
  mret room_id.

End Handlers.

(** ** A concrete deployment

    An in-memory implementation of the collaborators, used to run the
    handlers on concrete inputs. *)

Module Fixture.

Record Db : Type := mkDb {
  db_rooms : gmap string Room;
  db_members : gmap (string * string) RoomMember;   (* keyed by (room, user) *)
  db_hosts : gmap string (list string);             (* joined hosts per room *)
  db_paths : gmap string JVal;
  db_next_id : nat;
  db_clock : Z;
  db_seed : nat;
  db_denied : list string       (* users whose events are not authorized *)
}.

Fixpoint repeat_char (n : nat) (c : ascii) : string :=
  match n with
  | O => EmptyString
  | Datatypes.S n => String c (repeat_char n c)
  end.

Fixpoint repeat_char_length (n : nat) (c : ascii)
  : String.length (repeat_char n c) = n :=
  match n with
  | O => eq_refl
  | Datatypes.S n => f_equal Datatypes.S (repeat_char_length n c)
  end.

(** The text before and after the first colon. *)
Fixpoint split_colon (s : string) : option (string * string) :=
  match s with
  | EmptyString => None
  | String c rest =>
      if Ascii.eqb c ":" then Some (EmptyString, rest)
      else match split_colon rest with
           | Some (l, d) => Some (String c l, d)
           | None => None
           end
  end.

Definition hostname : string := "here.example".

Definition from_string (s : string) : result UserID :=
  match s with
  | String "@" rest =>
      match split_colon rest with
      | Some (l, d) => Ok (mkUserID l d (String.eqb d hostname))
      | None => Exn (OtherError "Invalid ID")
      end
  | _ => Exn (OtherError "Expected sigil")
  end.

Definition to_string (u : UserID) : string :=
  "@" +:+ localpart u +:+ ":" +:+ domain u.

(** The order in which this deployment's sets list their elements. *)
Definition set_order (l : list string) : list string :=
  reverse (remove_dups l).

Definition set_order_NoDup (l : list string) : NoDup (set_order l).
Proof.
  unfold set_order. rewrite reverse_Permutation. apply NoDup_remove_dups.
Qed.

Definition set_order_elem_of (l : list string) (x : string)
  : x ∈ set_order l <-> x ∈ l.
Proof.
  unfold set_order. by rewrite elem_of_reverse, elem_of_remove_dups.
Qed.

Definition ext : Externals := {|
  RoomTopicEvent_TYPE := "sy.room.topic";
  MessageEvent_TYPE := "sy.room.message";
  InviteJoinEvent_TYPE := "sy.room.invite_join";
  RoomMemberEvent_TYPE := "sy.room.member";
  UserID_from_string := from_string;
  UserID_to_string := to_string;
  UserID_str := to_string;
  list_set := set_order;
  list_set_NoDup := set_order_NoDup;
  list_set_elem_of := set_order_elem_of
|}.

Definition db_store_room (room creator : string) (public : bool) (d : Db)
  : result Db :=
  match db_rooms d !! room with
  | Some _ => Exn (StoreError 409 "Room already exists")
  | None =>
      Ok (mkDb (<[room := mkRoom room public creator]> (db_rooms d))
               (db_members d) (db_hosts d) (db_paths d) (db_next_id d)
               (db_clock d) (db_seed d) (db_denied d))
  end.

Definition db_store_room_member (user sender room : string)
           (content : gmap string JVal) (membership : JVal) (d : Db)
  : nat * Db :=
  let hosts := default [] (db_hosts d !! room) in
  let hosts' :=
    match membership, from_string user with
    | JStr "join", Ok u => domain u :: hosts
    | _, _ => hosts
    end in
  (db_next_id d,
   mkDb (db_rooms d)
        (<[(room, user) :=
             mkRoomMember user room (jval_str membership) sender content]>
           (db_members d))
        (<[room := hosts']> (db_hosts d)) (db_paths d)
        (Datatypes.S (db_next_id d)) (db_clock d) (db_seed d) (db_denied d)).

Definition db_tick (d : Db) : Z * Db :=
  (db_clock d,
   mkDb (db_rooms d) (db_members d) (db_hosts d) (db_paths d) (db_next_id d)
        (db_clock d + 1) (db_seed d) (db_denied d)).

Definition db_random (n : nat) (d : Db) : string * Db :=
  (repeat_char n (ascii_of_nat (97 + db_seed d mod 26)),
   mkDb (db_rooms d) (db_members d) (db_hosts d) (db_paths d) (db_next_id d)
        (db_clock d) (Datatypes.S (db_seed d)) (db_denied d)).

Definition db_persist (e : Event) (d : Db) : nat * Db :=
  (db_next_id d,
   mkDb (db_rooms d) (db_members d) (db_hosts d) (db_paths d)
        (Datatypes.S (db_next_id d)) (db_clock d) (db_seed d) (db_denied d)).

Definition db_auth (e : Event) (d : Db) : option Error :=
  if bool_decide (user_id e ∈ db_denied d)
  then Some (AuthError 403 "Forbidden")
  else None.

Definition collab : Collaborators Db := {|
  time_ms_impl := db_tick;
  random_string_impl := db_random;
  random_string_length := fun n d => repeat_char_length n _;
  auth_check_impl := db_auth;
  persist_event_impl := db_persist;
  get_joined_hosts_for_room_impl :=
    fun room d => default [] (db_hosts d !! room);
  store_room_impl := db_store_room;
  get_room_impl := fun room d => db_rooms d !! room;
  get_room_member_impl := fun user room d => db_members d !! (room, user);
  store_room_member_impl := db_store_room_member;
  get_path_data_impl := fun path d => db_paths d !! path;
  state_handle_new_event_impl := fun _ d => Ok d;
  federation_handle_new_event_impl := fun _ d => Ok d;
  federation_get_state_for_room_impl := fun _ _ d => Ok d;
  notifier_on_new_event_impl := fun _ _ d => d
|}.

(** Bob, a local user, has been invited by Alice of far.example to a room
    this server has no record of. *)
Definition invited_db : Db :=
  mkDb ∅
       {[ ("!far:far.example", "@bob:here.example") :=
            mkRoomMember "@bob:here.example" "!far:far.example" "invite"
                         "@alice:far.example" ∅ ]}
       ∅ ∅ 0 1000 0 [].

(** A private local room created by Carol, who has invited Bob; Dave has
    left it.  Mallory's events are not authorized. *)
Definition den_db : Db :=
  mkDb {[ "!den:here.example" :=
            mkRoom "!den:here.example" false "@carol:here.example" ]}
       {[ ("!den:here.example", "@carol:here.example") :=
            mkRoomMember "@carol:here.example" "!den:here.example" "join"
                         "@carol:here.example" ∅;
          ("!den:here.example", "@bob:here.example") :=
            mkRoomMember "@bob:here.example" "!den:here.example" "invite"
                         "@carol:here.example" ∅;
          ("!den:here.example", "@dave:far.example") :=
            mkRoomMember "@dave:far.example" "!den:here.example" "leave"
                         "@dave:far.example" ∅ ]}
       {[ "!den:here.example" := ["here.example"] ]}
       {[ "topic" := JStr "Welcome" ]}
       7 1000 0 ["@mallory:here.example"].

(** A store in which the first [n] ids the generator draws are taken. *)
Fixpoint taken_rooms (n : nat) : gmap string Room :=
  match n with
  | O => ∅
  | Datatypes.S n =>
      let id := repeat_char 18 (ascii_of_nat (97 + n)) in
      <[id := mkRoom id true "@carol:here.example"]> (taken_rooms n)
  end.

Definition crowded_db (n : nat) : Db :=
  mkDb (taken_rooms n) ∅ ∅ ∅ 0 1000 0 [].

Definition member_event (room user target membership : string) : Event :=
  mkEvent "sy.room.member" room user (Some target) (Some membership) None
          {[ "membership" := JStr membership ]} [].

Definition message_event (room user body : string) : Event :=
  mkEvent "sy.room.message" room user None None (Some "m1")
          {[ "msgtype" := JStr "sy.text"; "body" := JStr body ]} [].

Definition public_config : gmap string JVal :=
  {[ "visibility" := JStr "public" ]}.

Definition bob : string := "@bob:here.example".
Definition carol : string := "@carol:here.example".
Definition alice_id : UserID := mkUserID "alice" "far.example" false.
Definition far : string := "!far:far.example".
Definition den : string := "!den:here.example".

(** Carol's message and Bob's join in the den, and a message in another
    room, as three invocations in flight. *)
Definition fresh_pool : Pool Db :=
  mkPool [mkTask (send_message (message_event den carol "hi")
                               false true) [];
          mkTask (change_membership (EXT:=ext) (member_event den bob bob "join")
                                    false true) [];
          mkTask (send_feedback (message_event "!lab:here.example" carol "ok")
                                true) []]
         den_db.

(** The pool after Carol's invocation has stamped its event and taken the
    lock of the den. *)
Definition busy_pool : Pool Db :=
  default fresh_pool (run_schedule (CO:=collab) [0%nat; 0%nat] fresh_pool).

End Fixture.

(** The same deployment with some of its services out of order: the room
    store, state reconciliation or federation raise an error that is not a
    [StoreError], or the table of joined hosts lags behind the membership
    rows. *)

Module Outage.
Import Fixture.

Record Faults : Type := mkFaults {
  store_down : bool;
  state_down : bool;
  federation_down : bool;
  hosts_lag : bool
}.

(** The membership row is written and the joined hosts stay as they were. *)
Definition db_store_member_row (user sender room : string)
           (content : gmap string JVal) (membership : JVal) (d : Db)
  : nat * Db :=
  let written := db_store_room_member user sender room content membership d in
  (written.1,
   mkDb (db_rooms written.2) (db_members written.2) (db_hosts d)
        (db_paths written.2) (db_next_id written.2) (db_clock written.2)
        (db_seed written.2) (db_denied written.2)).

Definition degraded (f : Faults) : Collaborators Db := {|
  time_ms_impl := db_tick;
  random_string_impl := db_random;
  random_string_length := fun n d => repeat_char_length n _;
  auth_check_impl := db_auth;
  persist_event_impl := db_persist;
  get_joined_hosts_for_room_impl :=
    fun room d => default [] (db_hosts d !! room);
  store_room_impl :=
    fun room creator public d =>
      if store_down f then Exn (OtherError "database is locked")
      else db_store_room room creator public d;
  get_room_impl := fun room d => db_rooms d !! room;
  get_room_member_impl := fun user room d => db_members d !! (room, user);
  store_room_member_impl :=
    if hosts_lag f then db_store_member_row else db_store_room_member;
  get_path_data_impl := fun path d => db_paths d !! path;
  state_handle_new_event_impl :=
    fun _ d => if state_down f then Exn (OtherError "state conflict") else Ok d;
  federation_handle_new_event_impl :=
    fun _ d => if federation_down f then Exn (OtherError "unreachable")
               else Ok d;
  federation_get_state_for_room_impl := fun _ _ d => Ok d;
  notifier_on_new_event_impl := fun _ _ d => d
|}.

Definition no_store : Collaborators Db :=
  degraded (mkFaults true false false false).
Definition no_state : Collaborators Db :=
  degraded (mkFaults false true false false).
Definition no_federation : Collaborators Db :=
  degraded (mkFaults false false true false).
Definition lagging : Collaborators Db :=
  degraded (mkFaults false false false true).

Definition dave : string := "@dave:far.example".
Definition erin : string := "@erin:far.example".
Definition mallory : string := "@mallory:here.example".

End Outage.

(** ** The handlers that read, and [store_room_path_data]

    [get_message], [get_messages], [get_feedback], [get_room_members],
    [get_room_member] and [store_room_path_data] take no lock.  They are
    embedded in a state and error monad that records the collaborator calls
    made. *)

Module Readers.

(** Modelled from the spec: the collaborators of the reading handlers are
    defined outside room.py.  [check_joined_room] and [auth.check] may raise;
    the reads are pure and return a row or nothing; [store_path_data]
    returns the new state; [get_chunk] stands for building an [EventStream]
    over a [MessagesStreamData] and asking it for a chunk; [to_events] and
    [json.dumps] are pure. *)
Class ReadCollaborators (S : Type) : Type := {
  Message : Type;
  Feedback : Type;
  Chunk : Type;
  PaginationConfig : Type;
  check_joined_room_impl : option string -> option string -> S -> option Error;
  check_impl : Event -> S -> option Error;
  clock_impl : S -> Z * S;
  get_message_impl :
    option string -> option string -> option string -> S -> option Message;
  get_feedback_impl :
    option string -> option string -> option string -> option string ->
    option string -> S -> option Feedback;
  get_room_members_impl : option string -> S -> list RoomMember;
  get_room_member_impl : string -> string -> S -> option RoomMember;
  store_path_data_impl : string -> string -> string -> S -> S;
  get_chunk_impl :
    option string -> option string -> bool -> option PaginationConfig -> S ->
    result Chunk;
  to_events : list RoomMember -> list Event;
  json_dumps : gmap string JVal -> string
}.

Section Handlers.
Context {S : Type} {RC : ReadCollaborators S}.

(** The collaborator calls of these handlers. *)
Inductive Query : Type :=
| check_joined_room (room_id user_id : option string)
| check (event : Event)
| time
| store_get_message (room_id msg_id user_id : option string)
| store_get_feedback (room_id msg_id msg_sender_id fb_sender_id fb_type
                      : option string)
| store_get_room_members (room_id : option string)
| store_get_room_member (user_id room_id : string)
| store_store_path_data (room_id path content : string)
| event_stream_get_chunk (user_id room_id : option string) (feedback : bool)
                         (config : option PaginationConfig).

(** The collaborator state and the calls made so far, oldest first. *)
Record Log : Type := mkLog {
  state : S;
  queries : list Query
}.

Definition M (A : Type) : Type := Log -> result A * Log.

Definition ret {A : Type} (a : A) : M A := fun l => (Ok a, l).

Definition bind {A B : Type} (m : M A) (f : A -> M B) : M B :=
  fun l =>
    match m l with
    | (Ok a, l') => f a l'
    | (Exn e, l') => (Exn e, l')
    end.

#[export] Instance M_ret : MRet M := @ret.
#[export] Instance M_bind : MBind M := fun A B f m => bind m f.

Definition record (q : Query) (l : Log) : Log :=
  mkLog (state l) (queries l ++ [q]).

(** A call that reads: it returns what the collaborator finds. *)
Definition reading {A : Type} (q : Query) (f : S -> A) : M A :=
  fun l => (Ok (f (state l)), record q l).

(** A call that checks: it raises what the collaborator objects. *)
Definition checking (q : Query) (f : S -> option Error) : M unit :=
  fun l =>
    match f (state l) with
    | None => (Ok tt, record q l)
    | Some e => (Exn e, record q l)
    end.

(** A call that returns or raises. *)
Definition asking {A : Type} (q : Query) (f : S -> result A) : M A :=
  fun l => (f (state l), record q l).

(** A call that changes the collaborator state. *)
Definition writing {A : Type} (q : Query) (f : S -> A * S) : M A :=
  fun l => let '(a, s') := f (state l) in (Ok a, mkLog s' (queries l ++ [q])).

(** [def stamp(event)], with the clock of these collaborators. *)
Definition stamp (event : Event) : M Event :=
  now ← writing time clock_impl;
  mret (set_content (<["hsob_ts" := JInt now]> (content event)) event).

(** [MessageHandler.get_message]; a row, when there is one, is truthy. *)
Definition get_message (msg_id room_id sender_id user_id : option string)
  : M (option Message) :=
  checking (check_joined_room room_id user_id)
           (check_joined_room_impl room_id user_id) ;;
  (* Pull out the message from the db *)
  msg ← reading (store_get_message room_id msg_id sender_id)
                (get_message_impl room_id msg_id sender_id);
  match msg with
  | Some m => mret (Some m)
  | None => mret None
  end.

(** [MessageHandler.get_messages] *)
Definition get_messages (user_id room_id : option string)
           (pagin_config : option PaginationConfig) (feedback : bool)
  : M Chunk :=
  checking (check_joined_room room_id user_id)
           (check_joined_room_impl room_id user_id) ;;
  asking (event_stream_get_chunk user_id room_id feedback pagin_config)
         (get_chunk_impl user_id room_id feedback pagin_config).

(** [MessageHandler.store_room_path_data] *)
Definition store_room_path_data (event : Event) (path : string)
           (stamp_event : bool) : M unit :=
  checking (check event) (check_impl event) ;;
  event ← (if stamp_event then stamp event else mret event);
  (* store in db *)
  let content := json_dumps (content event) in
  writing (store_store_path_data (room_id event) path content)
          (fun s => (tt, store_path_data_impl (room_id event) path content s)).

(** [MessageHandler.get_feedback] *)
Definition get_feedback (room_id msg_sender_id msg_id user_id fb_sender_id
                         fb_type : option string) : M (option Feedback) :=
  checking (check_joined_room room_id user_id)
           (check_joined_room_impl room_id user_id) ;;
  (* Pull out the feedback from the db *)
  fb ← reading (store_get_feedback room_id msg_id msg_sender_id fb_sender_id
                                   fb_type)
               (get_feedback_impl room_id msg_id msg_sender_id fb_sender_id
                                  fb_type);
  match fb with
  | Some f => mret (Some f)
  | None => mret None
  end.

(** The dict [get_room_members] returns. *)
Record MemberChunk : Type := mkMemberChunk {
  chunk_start : string;
  chunk_end : string;
  chunk : list Event
}.

(** [RoomMemberHandler.get_room_members]; [limit] and the two tokens are
    arguments of the handler. *)
Definition get_room_members (room_id user_id : option string) (limit : Z)
           (start_tok end_tok : option string) : M MemberChunk :=
  checking (check_joined_room room_id user_id)
           (check_joined_room_impl room_id user_id) ;;
  member_list ← reading (store_get_room_members room_id)
                        (get_room_members_impl room_id);
  let event_list := to_events member_list in
  mret (mkMemberChunk "START" "END" event_list).

(** [RoomMemberHandler.get_room_member] *)
Definition get_room_member (room_id member_user_id auth_user_id : string)
  : M (option RoomMember) :=
  checking (check_joined_room (Some room_id) (Some auth_user_id))
           (check_joined_room_impl (Some room_id) (Some auth_user_id)) ;;
  reading (store_get_room_member member_user_id room_id)
          (get_room_member_impl member_user_id room_id).

(** A fresh invocation. *)
Definition fresh (s : S) : Log := mkLog s [].

End Handlers.

End Readers.

(** A concrete deployment for the reading handlers, over the same store. *)

Module ReaderFixture.
Import Fixture.

Definition joined (room_id user_id : option string) (d : Db) : option Error :=
  match room_id, user_id with
  | Some r, Some u =>
      match db_members d !! (r, u) with
      | Some member =>
          if String.eqb (m_membership member) "join" then None
          else Some (AuthError 403 "User not in room.")
      | None => Some (AuthError 403 "User not in room.")
      end
  | _, _ => Some (AuthError 403 "User not in room.")
  end.

Definition members_of (room_id : option string) (d : Db) : list RoomMember :=
  match room_id with
  | Some r =>
      omap (fun u => db_members d !! (r, u))
           ["@carol:here.example"; "@bob:here.example"; "@dave:far.example"]
  | None => []
  end.

Definition member_to_event (member : RoomMember) : Event :=
  mkEvent "sy.room.member" (m_room_id member) (m_sender member)
          (Some (m_user_id member)) (Some (m_membership member)) None
          (m_content member) [].

(** A stand-in for [json.dumps]: the keys in order, each with its value. *)
Definition dumps (content : gmap string JVal) : string :=
  foldr (fun kv acc => kv.1 +:+ "=" +:+ jval_str kv.2 +:+ ";" +:+ acc) ""
        (map_to_list content).

Definition store_path (room path content : string) (d : Db) : Db :=
  mkDb (db_rooms d) (db_members d) (db_hosts d)
       (<[path := JStr content]> (db_paths d)) (db_next_id d) (db_clock d)
       (db_seed d) (db_denied d).

Definition readers : Readers.ReadCollaborators Db := {|
  Readers.Message := string;
  Readers.Feedback := string;
  Readers.Chunk := list string;
  Readers.PaginationConfig := nat;
  Readers.check_joined_room_impl := joined;
  Readers.check_impl := db_auth;
  Readers.clock_impl := db_tick;
  Readers.get_message_impl := fun _ _ _ _ => None;
  Readers.get_feedback_impl := fun _ _ _ _ _ _ => None;
  Readers.get_room_members_impl := members_of;
  Readers.get_room_member_impl := fun user room d => db_members d !! (room, user);
  Readers.store_path_data_impl := store_path;
  Readers.get_chunk_impl := fun _ _ _ _ _ => Ok [];
  Readers.to_events := map member_to_event;
  Readers.json_dumps := dumps
|}.

End ReaderFixture.

(** * Properties *)

Section Properties.
Context {St : Type} {CO : Collaborators St} {EXT : Externals}.

(** *** Vocabulary of the statements *)

Definition continue_with {A B : Type} (r : Outcome A * World St)
           (f : A -> World St -> Outcome B * World St) : Outcome B * World St :=
  match r with
  | (Returned a, w) => f a w
  | (Raised e, w) => (Raised e, w)
  | (Deadlock, w) => (Deadlock, w)
  end.

(** [issues P p]: every call the handler [p] can issue, whatever the
    collaborators answer, satisfies [P]. *)
Inductive issues {A : Type} (P : Call -> Prop) : Prog A -> Prop :=
| issues_Ret a : issues P (Ret a)
| issues_Raise e : issues P (Raise e)
| issues_Do c k : P c -> (forall r, issues P (k r)) -> issues P (Do c k).

(** The user id [get_room_path_data] looks the member up with. *)
Definition lookup_user (user_id : option string) : string :=
  if truthy user_id then default "" user_id else "".

(** What [if stamp_event: stamp(event)] leaves: the event, the collaborator
    state and the calls issued. *)
Definition stamp_step (stamp_event : bool) (event : Event) (s : St)
  : Event * St * list (Call * list string) :=
  if stamp_event
  then let '(now, s') := time_ms_impl s in
       (set_content (<["hsob_ts" := JInt now]> (content event)) event, s',
        [(time_ms, [])])
  else (event, s, []).

(** The authorization check, when the flag asks for one. *)
Definition auth_step (checked : bool) (event : Event)
  : list (Call * list string) :=
  if checked then [(auth_check event, [room_id event])] else [].

Definition authorized (checked : bool) (event : Event) (s : St) : Prop :=
  checked = true -> auth_check_impl event s = None.

(** The calls a trace consists of, without the locks held. *)
Definition calls (w : World St) : list Call := (trace w).*1.

(** A join-request handed to federation. *)
Definition is_join_request (c : Call) : bool :=
  match c with
  | federation_handle_new_event ev =>
      bool_decide (etype ev = InviteJoinEvent_TYPE)
  | _ => false
  end.

Definition is_state_fetch (c : Call) : bool :=
  match c with
  | federation_get_state_for_room _ _ => true
  | _ => false
  end.

Definition is_membership_write (c : Call) : bool :=
  match c with
  | store_room_member _ _ _ _ _ => true
  | _ => false
  end.

(** Neither a join-request, nor a state fetch, nor a membership write. *)
Definition plain_call (c : Call) : Prop :=
  is_join_request c = false /\ is_state_fetch c = false
  /\ is_membership_write c = false.

(** What [change_membership] does after either branch:
    [if broadcast_msg: yield self._inject_membership_msg(...)]. *)
Definition broadcast_step (event : Event) (broadcast_msg : bool) : Prog Event :=
  (if broadcast_msg then
     target ← attr "target_user_id" (target_user_id event);
     membership ← getitem (content event) "membership";
     _inject_membership_msg (room_id event) (user_id event) target membership
   else mret tt) ;;
  mret event.

(** The remote invite-join dance applies: the stored membership of the
    target user is an invite, sent by a user of another home server, and
    the room is not known locally. *)
Record dance_condition (s : St) (event : Event) (target : string)
       (prev : RoomMember) (inviter : UserID) : Prop := {
  dance_prev : get_room_member_impl target (room_id event) s = Some prev;
  dance_invited : m_membership prev = Membership.INVITE;
  dance_inviter : UserID_from_string (m_sender prev) = Ok inviter;
  dance_remote : is_mine inviter = false;
  dance_no_room : get_room_impl (room_id event) s = None
}.

(** The join-request the dance sends. *)
Definition join_request (event : Event) (inviter : UserID) : Event :=
  set_destinations [domain inviter]
    (create_event InviteJoinEvent_TYPE (room_id event) (user_id event)
                  (Some (UserID_to_string inviter)) None None ∅).

(** The calls of the dance, each with the locks held when it is issued. *)
Definition dance_trace (do_auth : bool) (event : Event) (target : string)
           (inviter : UserID) : list (Call * list string) :=
  let room := room_id event in
  [(room_lock_lock room, [])]
  ++ auth_step do_auth event
  ++ [(get_room_member target room, [room]);
      (get_room room, [room]);
      (room_lock_release room, [room]);
      (store_room room (UserID_str inviter) false, []);
      (federation_handle_new_event (join_request event inviter), []);
      (federation_get_state_for_room (domain inviter) room, [])].

(** The dance does not apply: the stored membership of the target user is
    not an invite, or the inviter is a user of this home server, or the room
    is known locally. *)
Inductive ordinary_join (s : St) (event : Event) (target : string) : Prop :=
| not_invited :
    m_membership <$> get_room_member_impl target (room_id event) s
    <> Some Membership.INVITE ->
    ordinary_join s event target
| local_inviter prev inviter :
    get_room_member_impl target (room_id event) s = Some prev ->
    m_membership prev = Membership.INVITE ->
    UserID_from_string (m_sender prev) = Ok inviter ->
    is_mine inviter = true ->
    ordinary_join s event target
| room_known prev inviter room :
    get_room_member_impl target (room_id event) s = Some prev ->
    m_membership prev = Membership.INVITE ->
    UserID_from_string (m_sender prev) = Ok inviter ->
    get_room_impl (room_id event) s = Some room ->
    ordinary_join s event target.

(** The reads the JOIN branch decides on. *)
Definition decision_reads (s : St) (event : Event) (target : string)
  : list (Call * list string) :=
  let room := room_id event in
  (get_room_member target room, [room])
  :: match get_room_member_impl target room s with
     | Some prev =>
         if String.eqb (m_membership prev) Membership.INVITE
         then [(get_room room, [room])]
         else []
     | None => []
     end.

(** The calls of an ordinary join up to the hand-over to federation. *)
Definition join_trace (do_auth : bool) (s : St) (event : Event)
           (target : string) (event' : Event) : list (Call * list string) :=
  let room := room_id event in
  [(room_lock_lock room, [])]
  ++ auth_step do_auth event
  ++ decision_reads s event target
  ++ [(state_handle_new_event event, [room]);
      (store_room_member target (user_id event) room (content event)
                         (JStr Membership.JOIN), [room]);
      (get_joined_hosts_for_room room, [room]);
      (room_lock_release room, [room]);
      (federation_handle_new_event event', [])].

(** The membership values [_inject_membership_msg] has a text for. *)
Definition recognized (v : JVal) : Prop :=
  v = JStr Membership.INVITE \/ v = JStr Membership.JOIN
  \/ v = JStr Membership.LEAVE.

(** The text of the notification for a recognized membership value. *)
Definition notification_body (source target : string) (v : JVal) : string :=
  if jval_eqb v (JStr Membership.INVITE)
  then source +:+ " invited " +:+ target +:+ " to the room."
  else if jval_eqb v (JStr Membership.JOIN)
  then target +:+ " joined the room."
  else target +:+ " left the room.".

(** The message event [_inject_membership_msg] builds at clock reading
    [now]. *)
Definition notification (room source target : string) (v : JVal) (now : Z)
  : Event :=
  create_event MessageEvent_TYPE room "_homeserver_" None None
               (Some ("m" +:+ pretty now))
               (<["msgtype" := JStr "sy.text"]>
                  (<["body" := JStr (notification_body source target v)]> ∅)).

(** [collides user public k s s' tr]: starting from [s], the next [k]
    generated room ids are all rejected by the store with a [StoreError];
    [s'] is the collaborator state and [tr] the calls after these [k]
    attempts. *)
Inductive collides (user : string) (public : bool)
  : nat -> St -> St -> list (Call * list string) -> Prop :=
| collides_O s : collides user public 0 s s []
| collides_S k s gen s1 code msg s' tr :
    random_string_impl 18 s = (gen, s1) ->
    store_room_impl gen user public s1 = Exn (StoreError code msg) ->
    collides user public k s1 s' tr ->
    collides user public (Datatypes.S k) s s'
             ((random_string 18, []) :: (store_room gen user public, []) :: tr).

(** The creator's JOIN event for room [room]. *)
Definition creator_join (user room : string) : Event :=
  create_event RoomMemberEvent_TYPE room user (Some user)
               (Some Membership.JOIN) None
               (<["membership" := JStr Membership.JOIN]> ∅).

(** What [create_room] makes of the outcome of the creator's join. *)
Definition returning {A B : Type} (b : B) (o : Outcome A) : Outcome B :=
  match o with
  | Returned _ => Returned b
  | Raised e => Raised e
  | Deadlock => Deadlock
  end.

(** [guarded h' h p]: holding the locks [h], the handler [p] makes every
    call of a critical section with the lock of the call's room held, and
    when it returns it holds the locks [h']. *)
Inductive guarded {A : Type} (h' : list string)
  : list string -> Prog A -> Prop :=
| guarded_Ret a : guarded h' h' (Ret a)
| guarded_Raise h e : guarded h' h (Raise e)
| guarded_Do h c k :
    (forall room, critical_room c = Some room -> room ∈ h) ->
    (forall r, guarded h' (after_call c h) (k r)) ->
    guarded h' h (Do c k).

(** The three handlers that mutate a room. *)
Inductive invocation : Prog Event -> Prop :=
| invoke_send_message event suppress_auth stamp_event :
    invocation (send_message event suppress_auth stamp_event)
| invoke_send_feedback event stamp_event :
    invocation (send_feedback event stamp_event)
| invoke_change_membership event broadcast_msg do_auth :
    invocation (change_membership event broadcast_msg do_auth).


(** Taking or releasing a room lock; neither raises. *)
Definition lock_op (c : Call) : bool :=
  match c with
  | room_lock_lock _ | room_lock_release _ => true
  | _ => false
  end.

Definition is_ok {A : Type} (r : result A) : bool :=
  match r with
  | Ok _ => true
  | Exn _ => false
  end.

(** [disciplined hx h' h p]: holding the locks [h], the handler [p] asks for
    a lock only when it holds none, holds [h'] wherever it returns and [hx]
    wherever it raises. *)
Inductive disciplined {A : Type} (hx h' : list string)
  : list string -> Prog A -> Prop :=
| disciplined_Ret a : disciplined hx h' h' (Ret a)
| disciplined_Raise e : disciplined hx h' hx (Raise e)
| disciplined_Do h c k :
    (forall room, c = room_lock_lock room -> h = []) ->
    (forall r, (lock_op c = true -> is_ok r = true) ->
               disciplined hx h' (after_call c h) (k r)) ->
    disciplined hx h' h (Do c k).

(** The handlers of room.py that take a room lock. *)
Inductive locking_handler : forall A : Type, Prog A -> Prop :=
| locking_send_message event suppress_auth stamp_event :
    locking_handler Event (send_message event suppress_auth stamp_event)
| locking_send_feedback event stamp_event :
    locking_handler Event (send_feedback event stamp_event)
| locking_change_membership event broadcast_msg do_auth :
    locking_handler Event (change_membership event broadcast_msg do_auth)
| locking_create_room user_id room_id config :
    locking_handler string (create_room user_id room_id config).






Definition is_auth_check (c : Call) : bool :=
  match c with
  | auth_check _ => true
  | _ => false
  end.

(** The calls of a transition other than JOIN up to the hand-over to
    federation; [v] is the membership stored and [event'] the event with
    its destinations. *)
Definition transition_trace (do_auth : bool) (event : Event) (target : string)
           (v : JVal) (event' : Event) : list (Call * list string) :=
  let room := room_id event in
  [(room_lock_lock room, [])]
  ++ auth_step do_auth event
  ++ [(state_handle_new_event event, [room]);
      (store_room_member target (user_id event) room (content event) v,
       [room]);
      (get_joined_hosts_for_room room, [room]);
      (room_lock_release room, [room]);
      (federation_handle_new_event event', [])].

Definition is_random_string (c : Call) : bool :=
  match c with
  | random_string _ => true
  | _ => false
  end.

(** Neither an authorization check nor a draw of a random string. *)
Definition unchecked (c : Call) : Prop :=
  is_auth_check c = false /\ is_random_string c = false.

(** *** Generic facts about [run] *)

Lemma run_bind {A B : Type} (p : Prog A) (f : A -> Prog B) (w : World St) :
  run (p ≫= f) w = continue_with (run p w) (fun a w' => run (f a) w').
Proof.
  revert w. induction p as [a | e | c k IH]; intros w; try reflexivity.
  change (run (Do c k ≫= f) w) with (run (Do c (fun r => k r ≫= f)) w).
  cbn [run]. destruct (respond c (env w) (held w)) as [[[r s'] h'] |].
  - apply IH.
  - reflexivity.
Qed.

(** The trace is only ever appended to. *)
Lemma run_trace_app {A : Type} (p : Prog A) (s : St) (h : list string)
      (tr : list (Call * list string)) :
  run p (mkWorld s h tr)
  = let r := run p (mkWorld s h []) in
    (r.1, mkWorld (env r.2) (held r.2) (tr ++ trace r.2)).
Proof.
  revert s h tr. induction p as [a | e | c k IH]; intros s h tr; cbn.
  - by rewrite app_nil_r.
  - by rewrite app_nil_r.
  - destruct (respond c s h) as [[[r s'] h'] |]; [| reflexivity].
    rewrite (IH r s' h' (tr ++ [(c, h)])).
    rewrite (IH r s' h' [(c, h)]). cbn. by rewrite <- app_assoc.
Qed.

Lemma issues_bind {A B : Type} (P : Call -> Prop) (p : Prog A)
      (f : A -> Prog B) :
  issues P p -> (forall a, issues P (f a)) -> issues P (p ≫= f).
Proof.
  intros Hp Hf. induction Hp as [a | e | c k Hc Hk IH].
  - apply Hf.
  - constructor.
  - change (issues P (Do c (fun r => k r ≫= f))). constructor; auto.
Qed.

Lemma issues_call (P : Call -> Prop) (c : Call) : P c -> issues P (call c).
Proof. intros Hc. constructor; [done |]. intros [v | e]; constructor. Qed.

Lemma issues_releasing {A : Type} (P : Call -> Prop) (room : string)
      (p : Prog A) :
  P (room_lock_release room) -> issues P p -> issues P (releasing room p).
Proof.
  intros Hr Hp. induction Hp as [a | e | c k Hc Hk IH]; cbn.
  - constructor; [done |]. intros _. constructor.
  - constructor; [done |]. intros _. constructor.
  - constructor; auto.
Qed.

Lemma issues_with_room_lock {A : Type} (P : Call -> Prop) (room : string)
      (p : Prog A) :
  P (room_lock_lock room) -> P (room_lock_release room) -> issues P p ->
  issues P (with_room_lock room p).
Proof.
  intros Hl Hr Hp. apply issues_bind.
  - by apply issues_call.
  - intros _. by apply issues_releasing.
Qed.

Lemma run_issues {A : Type} (P : Call -> Prop) (p : Prog A) (w : World St) :
  issues P p ->
  exists ext, trace (run p w).2 = (trace w ++ ext)
              /\ Forall (fun x => P x.1) ext.
Proof.
  intros Hp. revert w. induction Hp as [a | e | c k Hc Hk IH]; intros w.
  - exists []. by rewrite app_nil_r.
  - exists []. by rewrite app_nil_r.
  - cbn [run]. destruct (respond c (env w) (held w)) as [[[r s'] h'] |].
    + destruct (IH r (mkWorld s' h' (trace w ++ [(c, held w)])))
        as (ext & -> & Hext).
      exists ((c, held w) :: ext). cbn. split.
      * by rewrite <- app_assoc.
      * by constructor.
    + exists [(c, held w)]. cbn. split; [done |]. by repeat constructor.
Qed.

(** *** MessageHandler.get_room_path_data *)

Lemma run_get_room_path_data
      (user_id : option string) (room_id path : string)
      (event_type : option string)
      (public_room_rules private_room_rules : option (list string))
      (s : St) :
  (run (get_room_path_data user_id room_id path event_type
                           public_room_rules private_room_rules) (start s)).1
  = match get_room_impl room_id s with
    | None => Raised (RoomError 403 "Room does not exist.")
    | Some room =>
        let member_state :=
          m_membership <$> get_room_member_impl (lookup_user user_id) room_id s in
        if is_public room then
          let rules := default [] public_room_rules in
          if nonempty rules && negb (state_in member_state rules)
          then Raised (RoomError 403 "Member does not meet public room rules.")
          else Returned (get_path_data_impl path s)
        else
          let rules := effective_private_rules event_type private_room_rules in
          if nonempty rules && negb (state_in member_state rules)
          then Raised (RoomError 403 "Member does not meet private room rules.")
          else Returned (get_path_data_impl path s)
    end.
Proof.
  unfold get_room_path_data, lookup_user. cbn.
  destruct (get_room_impl room_id s) as [room |]; [| reflexivity]. cbn.
  destruct (is_public room); cbn.
  - destruct (nonempty (default [] public_room_rules)); cbn; [| reflexivity].
    by destruct (state_in _ _).
  - destruct (nonempty (effective_private_rules _ _)); cbn; [| reflexivity].
    by destruct (state_in _ _).
Qed.

Lemma lookup_user_default (user_id : option string) :
  lookup_user user_id = default "" user_id.
Proof.
  unfold lookup_user, truthy. destruct user_id as [u |]; [| done].
  destruct (String.eqb_spec u ""); by subst.
Qed.

Lemma rule_check (member_state : option string) (rules : list string) :
  nonempty rules && negb (state_in member_state rules) = false
  <-> rules = [] \/ exists m, member_state = Some m /\ m ∈ rules.
Proof.
  destruct rules as [| r rules]; cbn.
  - split; [by left | done].
  - destruct member_state as [m |]; cbn.
    + rewrite negb_false_iff, bool_decide_eq_true. split.
      * intros Hm. right. by exists m.
      * intros [Hnil | (m' & [= <-] & Hm)]; [discriminate | done].
    + split; [done |]. intros [Hnil | (m & Hm & _)]; discriminate.
Qed.

(** C6.  [get_room_path_data] refuses with 403 "Room does not exist." when
    the room is absent.  Otherwise the rule list that applies is the public
    one in a public room and the private one in a private room (the list
    the caller gives, [] and ["join"] when the argument is left out; for the
    room topic the private list is ["invite"; "join"], see C5).  When that
    list is empty, or the caller is a member whose membership is in it, the
    stored path data is returned; in every other case, also for a caller
    who is not a member, the call is refused with 403. *)
Theorem get_room_path_data_rule_table
        (user_id : option string) (room_id path : string)
        (event_type : option string)
        (public_room_rules private_room_rules : option (list string))
        (s : St) :
  let outcome :=
    (run (get_room_path_data user_id room_id path event_type
                             public_room_rules private_room_rules)
         (start s)).1 in
  let member_state :=
    m_membership <$> get_room_member_impl (default "" user_id) room_id s in
  let meets (rules : list string) :=
    rules = [] \/ exists m, member_state = Some m /\ m ∈ rules in
  let table (rules : list string) (refusal : string) :=
    (meets rules -> outcome = Returned (get_path_data_impl path s))
    /\ (~ meets rules -> outcome = Raised (RoomError 403 refusal)) in
  (get_room_impl room_id s = None ->
   outcome = Raised (RoomError 403 "Room does not exist."))
  /\
  (forall room,
     get_room_impl room_id s = Some room ->
     is_public room = true ->
     table (default [] public_room_rules)
           "Member does not meet public room rules.")
  /\
  (forall room,
     get_room_impl room_id s = Some room ->
     is_public room = false ->
     event_type <> Some RoomTopicEvent_TYPE ->
     table (default ["join"] private_room_rules)
           "Member does not meet private room rules.")
  /\
  (forall room,
     get_room_impl room_id s = Some room ->
     is_public room = false ->
     event_type = Some RoomTopicEvent_TYPE ->
     table ["invite"; "join"] "Member does not meet private room rules.").
Proof.
  intros outcome member_state meets table.
  pose proof (run_get_room_path_data user_id room_id path event_type
                public_room_rules private_room_rules s) as Hrun.
  fold outcome in Hrun. rewrite lookup_user_default in Hrun.
  cbn zeta in Hrun. fold member_state in Hrun.
  assert (Htable : forall rules refusal,
            outcome
            = (if nonempty rules && negb (state_in member_state rules)
               then Raised (RoomError 403 refusal)
               else Returned (get_path_data_impl path s)) ->
            table rules refusal).
  { intros rules refusal Hout. subst table meets. cbn beta.
    pose proof (rule_check member_state rules) as Hcheck.
    destruct (nonempty rules && negb (state_in member_state rules)).
    - split; [| done]. intros Hmeets. apply Hcheck in Hmeets. discriminate.
    - split; [done |]. intros Hno. destruct Hno. by apply Hcheck. }
  split; [| split; [| split]].
  - intros Hroom. by rewrite Hroom in Hrun.
  - intros room Hroom Hpublic. rewrite Hroom, Hpublic in Hrun.
    apply Htable, Hrun.
  - intros room Hroom Hprivate Htype. rewrite Hroom, Hprivate in Hrun.
    unfold effective_private_rules in Hrun.
    rewrite bool_decide_eq_false_2 in Hrun by done.
    apply Htable, Hrun.
  - intros room Hroom Hprivate Htype. rewrite Hroom, Hprivate in Hrun.
    unfold effective_private_rules in Hrun.
    rewrite bool_decide_eq_true_2 in Hrun by done.
    apply Htable, Hrun.
Qed.

(** C5.  Reading the room topic of a private room: whatever private rules
    the caller supplies, the rules applied are ["invite"; "join"], so an
    invited member is given the data and a member who left is refused with
    403. *)
Theorem get_room_path_data_topic_private
        (user_id : option string) (room_id path : string)
        (public_room_rules private_room_rules : option (list string))
        (s : St) (room : Room) (member : RoomMember) :
  get_room_impl room_id s = Some room ->
  is_public room = false ->
  get_room_member_impl (lookup_user user_id) room_id s = Some member ->
  let handler :=
    get_room_path_data user_id room_id path (Some RoomTopicEvent_TYPE)
                       public_room_rules private_room_rules in
  effective_private_rules (Some RoomTopicEvent_TYPE) private_room_rules
  = ["invite"; "join"] /\
  (m_membership member = "invite" ->
   (run handler (start s)).1 = Returned (get_path_data_impl path s)) /\
  (m_membership member = "leave" ->
   (run handler (start s)).1
   = Raised (RoomError 403 "Member does not meet private room rules.")).
Proof.
  intros Hroom Hpriv Hmem handler.
  assert (Heff : effective_private_rules (Some RoomTopicEvent_TYPE)
                                         private_room_rules
                 = ["invite"; "join"]).
  { unfold effective_private_rules. by rewrite bool_decide_eq_true_2. }
  split; [exact Heff |].
  pose proof (run_get_room_path_data user_id room_id path
                (Some RoomTopicEvent_TYPE) public_room_rules
                private_room_rules s) as Hrun.
  fold handler in Hrun. rewrite Hroom, Hpriv, Hmem, Heff in Hrun. cbn in Hrun.
  split; intros Hm; rewrite Hm in Hrun; exact Hrun.
Qed.

(** *** Sending messages and feedback *)

Lemma jval_eqb_refl (a : JVal) : jval_eqb a a = true.
Proof. by apply bool_decide_eq_true_2. Qed.

Lemma jval_eqb_join_invite :
  jval_eqb (JStr Membership.JOIN) (JStr Membership.INVITE) = false.
Proof. reflexivity. Qed.

Ltac run_simpl :=
  cbn; rewrite ?String.eqb_refl, ?jval_eqb_refl, ?jval_eqb_join_invite; cbn.

(** C8.  A failed authorization check aborts [send_message] (without
    [suppress_auth]) and [change_membership] (with [do_auth]) with the
    authorization error: the only calls issued besides the clock read of
    [stamp] are taking the room lock, the check and releasing the lock, the
    collaborators are left as they were, and no lock stays held. *)
Theorem auth_failure_aborts_before_mutation
        (event : Event) (stamp_event broadcast_msg : bool) (s : St)
        (err : Error) :
  (forall event1 s1 pre,
     stamp_step stamp_event event s = (event1, s1, pre) ->
     auth_check_impl event1 s1 = Some err ->
     run (send_message event false stamp_event) (start s)
     = (Raised err,
        mkWorld s1 []
                (pre ++ [(room_lock_lock (room_id event), []);
                         (auth_check event1, [room_id event]);
                         (room_lock_release (room_id event), [room_id event])])))
  /\
  (is_Some (membership event) ->
   auth_check_impl event s = Some err ->
   run (change_membership event broadcast_msg true) (start s)
   = (Raised err,
      mkWorld s []
              [(room_lock_lock (room_id event), []);
               (auth_check event, [room_id event]);
               (room_lock_release (room_id event), [room_id event])])).
Proof.
  split.
  - intros event1 s1 pre Hstamp Hauth. unfold stamp_step in Hstamp.
    destruct stamp_event.
    + cbn. destruct (time_ms_impl s) as [now s'].
      injection Hstamp as <- <- <-. run_simpl. rewrite Hauth. by run_simpl.
    + injection Hstamp as <- <- <-. run_simpl. rewrite Hauth. by run_simpl.
  - intros [m Hm] Hauth. unfold change_membership. rewrite Hm. cbn.
    destruct (String.eqb m Membership.JOIN); run_simpl; rewrite Hauth;
      by run_simpl.
Qed.

(** C7.  In a call that returns, [send_feedback] hands the event to
    federation and to the notifier with no lock held, after releasing the
    room lock, whereas [send_message] issues both calls with the room lock
    held and releases it last; both persist the event and read the joined
    hosts with the lock held. *)
Theorem forwarding_lock_asymmetry
        (event : Event) (suppress_auth stamp_event : bool) (s : St)
        (event1 : Event) (s1 : St) (pre : list (Call * list string)) :
  stamp_step stamp_event event s = (event1, s1, pre) ->
  let room := room_id event in
  let store_id := (persist_event_impl event1 s1).1 in
  let s2 := (persist_event_impl event1 s1).2 in
  let event2 :=
    set_destinations (get_joined_hosts_for_room_impl room s2) event1 in
  (forall ev,
     (run (send_feedback event stamp_event) (start s)).1 = Returned ev ->
     trace (run (send_feedback event stamp_event) (start s)).2
     = pre ++ [(room_lock_lock room, []);
               (auth_check event1, [room]);
               (persist_event event1, [room]);
               (get_joined_hosts_for_room room, [room]);
               (room_lock_release room, [room]);
               (federation_handle_new_event event2, []);
               (notifier_on_new_event event2 store_id, [])])
  /\
  (forall ev,
     (run (send_message event suppress_auth stamp_event) (start s)).1
     = Returned ev ->
     trace (run (send_message event suppress_auth stamp_event) (start s)).2
     = pre ++ [(room_lock_lock room, [])]
           ++ auth_step (negb suppress_auth) event1
           ++ [(persist_event event1, [room]);
               (get_joined_hosts_for_room room, [room]);
               (federation_handle_new_event event2, [room]);
               (notifier_on_new_event event2 store_id, [room]);
               (room_lock_release room, [room])]).
Proof.
  intros Hstamp room store_id s2 event2.
  subst room store_id s2 event2. unfold stamp_step in Hstamp.
  split; intros ev.
  - destruct stamp_event; cbn.
    + destruct (time_ms_impl s) as [now s']. injection Hstamp as <- <- <-.
      run_simpl. destruct (auth_check_impl _ s'); run_simpl; [done |].
      destruct (persist_event_impl _ s') as [n s2]. run_simpl.
      destruct (federation_handle_new_event_impl _ s2); by run_simpl.
    + injection Hstamp as <- <- <-.
      run_simpl. destruct (auth_check_impl _ s); run_simpl; [done |].
      destruct (persist_event_impl _ s) as [n s2]. run_simpl.
      destruct (federation_handle_new_event_impl _ s2); by run_simpl.
  - destruct stamp_event; cbn.
    + destruct (time_ms_impl s) as [now s']. injection Hstamp as <- <- <-.
      destruct suppress_auth; run_simpl.
      * destruct (persist_event_impl _ s') as [n s2]. run_simpl.
        destruct (federation_handle_new_event_impl _ s2); by run_simpl.
      * destruct (auth_check_impl _ s'); run_simpl; [done |].
        destruct (persist_event_impl _ s') as [n s2]. run_simpl.
        destruct (federation_handle_new_event_impl _ s2); by run_simpl.
    + injection Hstamp as <- <- <-.
      destruct suppress_auth; run_simpl.
      * destruct (persist_event_impl _ s) as [n s2]. run_simpl.
        destruct (federation_handle_new_event_impl _ s2); by run_simpl.
      * destruct (auth_check_impl _ s); run_simpl; [done |].
        destruct (persist_event_impl _ s) as [n s2]. run_simpl.
        destruct (federation_handle_new_event_impl _ s2); by run_simpl.
Qed.

(** *** RoomMemberHandler.change_membership *)

(** Walk through every branch of a handler's call tree. *)
Ltac walk_issues side :=
  cbn;
  repeat first
    [ apply issues_Ret
    | apply issues_Raise
    | apply issues_Do; [side | intros [? | ?]; cbn]
    | match goal with
      | |- context [if jval_eqb ?a ?b then _ else _] =>
          destruct (jval_eqb a b); cbn
      end ].

Ltac plain_side Hty :=
  repeat split; cbn; try reflexivity; apply bool_decide_eq_false_2; exact Hty.

Lemma send_message_plain (event : Event) (suppress_auth stamp_event : bool) :
  etype event <> InviteJoinEvent_TYPE ->
  issues plain_call (send_message event suppress_auth stamp_event).
Proof.
  intros Hty. unfold send_message.
  destruct stamp_event, suppress_auth; walk_issues ltac:(plain_side Hty).
Qed.

Lemma broadcast_step_plain (event : Event) (broadcast_msg : bool) :
  MessageEvent_TYPE <> InviteJoinEvent_TYPE ->
  issues plain_call (broadcast_step event broadcast_msg).
Proof.
  intros Hty. unfold broadcast_step.
  destruct broadcast_msg; [| walk_issues ltac:(plain_side Hty)].
  destruct (target_user_id event) as [target |];
    [| walk_issues ltac:(plain_side Hty)].
  unfold getitem. destruct (content event !! "membership") as [m |];
    [| walk_issues ltac:(plain_side Hty)].
  unfold _inject_membership_msg. walk_issues ltac:(plain_side Hty).
Qed.

Lemma change_membership_dance
      (event : Event) (broadcast_msg do_auth : bool) (s s1 s2 : St)
      (target : string) (prev : RoomMember) (inviter : UserID) :
  membership event = Some Membership.JOIN ->
  target_user_id event = Some target ->
  authorized do_auth event s ->
  dance_condition s event target prev inviter ->
  store_room_impl (room_id event) (UserID_str inviter) false s = Ok s1 ->
  federation_handle_new_event_impl (join_request event inviter) s1 = Ok s2 ->
  run (change_membership event broadcast_msg do_auth) (start s)
  = match federation_get_state_for_room_impl
            (domain inviter) (room_id event) s2 with
    | Ok s3 =>
        run (broadcast_step event broadcast_msg)
            (mkWorld s3 [] (dance_trace do_auth event target inviter))
    | Exn err =>
        (Raised err, mkWorld s2 [] (dance_trace do_auth event target inviter))
    end.
Proof.
  intros Hm Ht Hauth [Hprev Hinv Hparse Hremote Hroom] Hstore Hfed.
  unfold change_membership, dance_trace, auth_step. rewrite Hm. cbn.
  destruct do_auth; run_simpl.
  - rewrite (Hauth eq_refl), Ht. run_simpl. rewrite Hprev. run_simpl.
    rewrite Hinv. run_simpl. rewrite Hroom, Hparse. run_simpl.
    rewrite Hremote. run_simpl. rewrite Hstore. run_simpl.
    fold (join_request event inviter). rewrite Hfed. run_simpl.
    destruct (federation_get_state_for_room_impl _ _ s2); reflexivity.
  - rewrite Ht. run_simpl. rewrite Hprev. run_simpl.
    rewrite Hinv. run_simpl. rewrite Hroom, Hparse. run_simpl.
    rewrite Hremote. run_simpl. rewrite Hstore. run_simpl.
    fold (join_request event inviter). rewrite Hfed. run_simpl.
    destruct (federation_get_state_for_room_impl _ _ s2); reflexivity.
Qed.

Lemma filter_plain (f : Call -> bool) (ext : list (Call * list string)) :
  (forall c, plain_call c -> f c = false) ->
  Forall (fun x => plain_call x.1) ext ->
  List.filter f ext.*1 = [].
Proof.
  intros Hf Hext. induction Hext as [| x ext Hx _ IH]; [done |].
  cbn. by rewrite (Hf _ Hx).
Qed.

(** The trace the dance leaves: its own calls, then whatever the broadcast
    of the membership message issues. *)
Lemma change_membership_dance_trace
      (event : Event) (broadcast_msg do_auth : bool) (s s1 s2 : St)
      (target : string) (prev : RoomMember) (inviter : UserID) :
  membership event = Some Membership.JOIN ->
  target_user_id event = Some target ->
  authorized do_auth event s ->
  dance_condition s event target prev inviter ->
  store_room_impl (room_id event) (UserID_str inviter) false s = Ok s1 ->
  federation_handle_new_event_impl (join_request event inviter) s1 = Ok s2 ->
  MessageEvent_TYPE <> InviteJoinEvent_TYPE ->
  exists rest,
    trace (run (change_membership event broadcast_msg do_auth) (start s)).2
    = dance_trace do_auth event target inviter ++ rest
    /\ Forall (fun x => plain_call x.1) rest
    /\ (broadcast_msg = false -> rest = []).
Proof.
  intros Hm Ht Hauth Hdance Hstore Hfed Hty.
  rewrite (change_membership_dance event broadcast_msg do_auth s s1 s2
             target prev inviter) by done.
  destruct (federation_get_state_for_room_impl _ _ s2) as [s3 | err].
  - destruct (run_issues plain_call (broadcast_step event broadcast_msg)
                (mkWorld s3 [] (dance_trace do_auth event target inviter))
                (broadcast_step_plain event broadcast_msg Hty))
      as (rest & Htr & Hrest).
    exists rest. split; [exact Htr |]. split; [exact Hrest |].
    intros ->.
    change (dance_trace do_auth event target inviter
            = dance_trace do_auth event target inviter ++ rest) in Htr.
    apply (app_inv_head (dance_trace do_auth event target inviter)).
    by rewrite app_nil_r.
  - exists []. cbn. by rewrite app_nil_r.
Qed.

(** C1.  A JOIN for which the dance applies (the call being authorized, and
    the local room record and the join-request going through) hands exactly
    one join-request to federation, whose destination list is exactly the
    inviter's host, fetches the remote state exactly once, from that host,
    and never calls [store_room_member]. *)
Theorem dance_issues_one_join_request
        (event : Event) (broadcast_msg do_auth : bool) (s s1 s2 : St)
        (target : string) (prev : RoomMember) (inviter : UserID) :
  membership event = Some Membership.JOIN ->
  target_user_id event = Some target ->
  authorized do_auth event s ->
  dance_condition s event target prev inviter ->
  store_room_impl (room_id event) (UserID_str inviter) false s = Ok s1 ->
  federation_handle_new_event_impl (join_request event inviter) s1 = Ok s2 ->
  MessageEvent_TYPE <> InviteJoinEvent_TYPE ->
  let issued :=
    calls (run (change_membership event broadcast_msg do_auth) (start s)).2 in
  List.filter is_join_request issued
  = [federation_handle_new_event (join_request event inviter)]
  /\ destinations (join_request event inviter) = [domain inviter]
  /\ List.filter is_state_fetch issued
     = [federation_get_state_for_room (domain inviter) (room_id event)]
  /\ List.filter is_membership_write issued = [].
Proof.
  intros Hm Ht Hauth Hdance Hstore Hfed Hty issued.
  destruct (change_membership_dance_trace event broadcast_msg do_auth s s1 s2
              target prev inviter) as (rest & Htr & Hrest & _); try done.
  subst issued. unfold calls. rewrite Htr, fmap_app.
  rewrite !List.filter_app.
  rewrite !(filter_plain _ rest) by (try done; by intros c (? & ? & ?)).
  rewrite !app_nil_r. unfold dance_trace, auth_step.
  destruct do_auth; cbn; rewrite bool_decide_eq_true_2 by done; done.
Qed.

(** C10.  In the dance only the authorization check, the read of the
    previous membership and the read of the room record are issued with the
    room lock held; the local room record (private, created by the
    inviter), the join-request and the remote-state fetch are issued after
    the lock is released, with no lock held. *)
Theorem dance_io_after_lock_release
        (event : Event) (broadcast_msg do_auth : bool) (s s1 s2 : St)
        (target : string) (prev : RoomMember) (inviter : UserID) :
  membership event = Some Membership.JOIN ->
  target_user_id event = Some target ->
  authorized do_auth event s ->
  dance_condition s event target prev inviter ->
  store_room_impl (room_id event) (UserID_str inviter) false s = Ok s1 ->
  federation_handle_new_event_impl (join_request event inviter) s1 = Ok s2 ->
  let room := room_id event in
  exists rest,
    trace (run (change_membership event broadcast_msg do_auth) (start s)).2
    = [(room_lock_lock room, [])]
      ++ auth_step do_auth event
      ++ [(get_room_member target room, [room]);
          (get_room room, [room]);
          (room_lock_release room, [room]);
          (store_room room (UserID_str inviter) false, []);
          (federation_handle_new_event (join_request event inviter), []);
          (federation_get_state_for_room (domain inviter) room, [])]
      ++ rest
    /\ (broadcast_msg = false -> rest = []).
Proof.
  intros Hm Ht Hauth Hdance Hstore Hfed room.
  rewrite (change_membership_dance event broadcast_msg do_auth s s1 s2
             target prev inviter) by done.
  destruct (federation_get_state_for_room_impl _ _ s2) as [s3 | err].
  - rewrite run_trace_app. cbn [snd trace].
    eexists. split.
    + unfold dance_trace. cbn. rewrite <- app_assoc. reflexivity.
    + intros ->. reflexivity.
  - exists []. cbn [snd trace]. split; [| done].
    unfold dance_trace. cbn. reflexivity.
Qed.

Lemma string_eqb_false (a b : string) : a <> b -> String.eqb a b = false.
Proof. intros Hne. by apply String.eqb_neq. Qed.

Lemma change_membership_ordinary_join
      (event : Event) (broadcast_msg do_auth : bool) (s s1 : St)
      (target : string) (u : UserID) :
  membership event = Some Membership.JOIN ->
  target_user_id event = Some target ->
  content event !! "membership" = Some (JStr Membership.JOIN) ->
  authorized do_auth event s ->
  ordinary_join s event target ->
  state_handle_new_event_impl event s = Ok s1 ->
  UserID_from_string target = Ok u ->
  let room := room_id event in
  let store_id :=
    (store_room_member_impl target (user_id event) room (content event)
                            (JStr Membership.JOIN) s1).1 in
  let s2 :=
    (store_room_member_impl target (user_id event) room (content event)
                            (JStr Membership.JOIN) s1).2 in
  let event' :=
    set_destinations
      (list_set (get_joined_hosts_for_room_impl room s2 ++ [domain u]))
      event in
  run (change_membership event broadcast_msg do_auth) (start s)
  = match federation_handle_new_event_impl event' s2 with
    | Ok s3 =>
        run (broadcast_step event' broadcast_msg)
            (mkWorld (notifier_on_new_event_impl event' store_id s3) []
                     (join_trace do_auth s event target event'
                      ++ [(notifier_on_new_event event' store_id, [])]))
    | Exn err =>
        (Raised err, mkWorld s2 [] (join_trace do_auth s event target event'))
    end.
Proof.
  intros Hm Ht Hc Hauth Hord Hstate Hu room store_id s2 event'.
  subst room store_id s2 event'.
  unfold change_membership, _do_membership_update, getitem, join_trace,
    decision_reads, auth_step.
  rewrite Hm, Hc. cbn.
  assert (Hau : do_auth = true -> auth_check_impl event s = None) by exact Hauth.
  destruct Hord as [Hni | prev inviter Hprev Hinv Hparse Hmine
                   | prev inviter rm Hprev Hinv Hparse Hroom].
  - destruct (get_room_member_impl target (room_id event) s) as [prev |] eqn:Hprev.
    + assert (Hne : String.eqb (m_membership prev) Membership.INVITE = false).
      { apply string_eqb_false. intros Heq. apply Hni. cbn. by rewrite Heq. }
      destruct do_auth; run_simpl; rewrite ?(Hau eq_refl), ?Ht; run_simpl;
        rewrite ?Hprev; run_simpl; rewrite ?Hne; run_simpl;
        rewrite Hstate; run_simpl;
        destruct (store_room_member_impl _ _ _ _ _ s1) as [n s2]; run_simpl;
        rewrite Hu; run_simpl;
        destruct (federation_handle_new_event_impl _ s2); reflexivity.
    + destruct do_auth; run_simpl; rewrite ?(Hau eq_refl), ?Ht; run_simpl;
        rewrite ?Hprev; run_simpl;
        rewrite Hstate; run_simpl;
        destruct (store_room_member_impl _ _ _ _ _ s1) as [n s2]; run_simpl;
        rewrite Hu; run_simpl;
        destruct (federation_handle_new_event_impl _ s2); reflexivity.
  - destruct do_auth; run_simpl; rewrite ?(Hau eq_refl), ?Ht; run_simpl;
      rewrite ?Hprev; run_simpl; rewrite ?Hinv; run_simpl;
      rewrite Hparse; run_simpl; rewrite Hmine; run_simpl;
      rewrite Hstate; run_simpl;
      destruct (store_room_member_impl _ _ _ _ _ s1) as [n s2]; run_simpl;
      rewrite Hu; run_simpl;
      destruct (federation_handle_new_event_impl _ s2); reflexivity.
  - destruct do_auth; run_simpl; rewrite ?(Hau eq_refl), ?Ht; run_simpl;
      rewrite ?Hprev; run_simpl; rewrite ?Hinv; run_simpl;
      rewrite Hroom, Hparse; run_simpl; rewrite andb_false_r; run_simpl;
      rewrite Hstate; run_simpl;
      destruct (store_room_member_impl _ _ _ _ _ s1) as [n s2]; run_simpl;
      rewrite Hu; run_simpl;
      destruct (federation_handle_new_event_impl _ s2); reflexivity.
Qed.

Lemma broadcast_step_no_write (event : Event) (broadcast_msg : bool) :
  issues (fun c => is_membership_write c = false)
         (broadcast_step event broadcast_msg).
Proof.
  unfold broadcast_step. destruct broadcast_msg; [| walk_issues ltac:(idtac; reflexivity)].
  destruct (target_user_id event) as [target |]; [| walk_issues ltac:(idtac; reflexivity)].
  unfold getitem. destruct (content event !! "membership") as [m |];
    [| walk_issues ltac:(idtac; reflexivity)].
  unfold _inject_membership_msg. walk_issues ltac:(idtac; reflexivity).
Qed.

Lemma run_broadcast_step_returns (event ev : Event) (broadcast_msg : bool)
      (w : World St) :
  (run (broadcast_step event broadcast_msg) w).1 = Returned ev -> ev = event.
Proof.
  unfold broadcast_step. rewrite run_bind.
  destruct (run _ w) as [[a | e |] w']; cbn; congruence.
Qed.

Lemma filter_no_write (ext : list (Call * list string)) :
  Forall (fun x => is_membership_write x.1 = false) ext ->
  List.filter is_membership_write ext.*1 = [].
Proof.
  intros Hext. induction Hext as [| x ext Hx _ IH]; [done |].
  cbn. by rewrite Hx.
Qed.

Lemma decision_reads_no_write (s : St) (event : Event) (target : string) :
  List.filter is_membership_write (decision_reads s event target).*1 = [].
Proof.
  unfold decision_reads.
  destruct (get_room_member_impl _ _ s) as [prev |]; [| done].
  by destruct (String.eqb _ _).
Qed.

(** C3.  A JOIN for which the dance does not apply (the call being
    authorized and state reconciliation going through) calls
    [store_room_member] exactly once, for the room and the target user with
    membership "join", and sets the event's destinations to the set of the
    hosts the store then reports as joined together with the joining user's
    own home server: a list without duplicates that has exactly these
    elements, in whatever order [list(set(...))] leaves them.  The event
    with these destinations is the one handed to federation, and the one
    the handler leaves when it returns. *)
Theorem ordinary_join_commits_membership
        (event : Event) (broadcast_msg do_auth : bool) (s s1 : St)
        (target : string) (u : UserID) :
  membership event = Some Membership.JOIN ->
  target_user_id event = Some target ->
  content event !! "membership" = Some (JStr Membership.JOIN) ->
  authorized do_auth event s ->
  ordinary_join s event target ->
  state_handle_new_event_impl event s = Ok s1 ->
  UserID_from_string target = Ok u ->
  let room := room_id event in
  let s2 :=
    (store_room_member_impl target (user_id event) room (content event)
                            (JStr Membership.JOIN) s1).2 in
  let joined := get_joined_hosts_for_room_impl room s2 in
  let done := run (change_membership event broadcast_msg do_auth) (start s) in
  List.filter is_membership_write (calls done.2)
  = [store_room_member target (user_id event) room (content event)
                       (JStr Membership.JOIN)]
  /\ exists dests,
       NoDup dests
       /\ (forall h, h ∈ dests <-> h ∈ joined \/ h = domain u)
       /\ federation_handle_new_event (set_destinations dests event)
          ∈ calls done.2
       /\ (forall ev,
             done.1 = Returned ev -> ev = set_destinations dests event).
Proof.
  intros Hm Ht Hc Hauth Hord Hstate Hu room s2 joined done.
  set (event' := set_destinations (list_set (joined ++ [domain u])) event).
  assert (Hrun := change_membership_ordinary_join event broadcast_msg do_auth
                    s s1 target u Hm Ht Hc Hauth Hord Hstate Hu).
  cbn zeta in Hrun. fold room s2 joined event' done in Hrun.
  assert (Hjoin : List.filter is_membership_write
                    (join_trace do_auth s event target event').*1
                  = [store_room_member target (user_id event) room
                       (content event) (JStr Membership.JOIN)]).
  { unfold join_trace. rewrite !fmap_app, !List.filter_app.
    rewrite decision_reads_no_write. unfold auth_step.
    by destruct do_auth. }
  assert (Hin : federation_handle_new_event event'
                ∈ (join_trace do_auth s event target event').*1).
  { unfold join_trace. rewrite !fmap_app. cbn.
    apply list_elem_of_further. rewrite !elem_of_app. right. right.
    cbn. set_solver. }
  split; [| exists (list_set (joined ++ [domain u])); repeat split].
  - rewrite Hrun.
    destruct (federation_handle_new_event_impl event' s2) as [s3 | err];
      [| exact Hjoin].
    unfold calls. rewrite run_trace_app. cbn [snd trace].
    destruct (run_issues _ (broadcast_step event' broadcast_msg)
                (mkWorld (notifier_on_new_event_impl event'
                   (store_room_member_impl target (user_id event) room
                      (content event) (JStr Membership.JOIN) s1).1 s3) [] [])
                (broadcast_step_no_write event' broadcast_msg))
      as (ext & -> & Hext).
    cbn [trace app]. rewrite !fmap_app, !List.filter_app, Hjoin.
    rewrite (filter_no_write ext Hext). done.
  - apply list_set_NoDup.
  - intros Hh. rewrite list_set_elem_of, elem_of_app in Hh.
    destruct Hh as [Hh | Hh]; [by left |].
    right. by apply list_elem_of_singleton in Hh.
  - intros [Hh | ->]; rewrite list_set_elem_of, elem_of_app.
    + by left.
    + right. by apply list_elem_of_singleton.
  - fold event'. rewrite Hrun.
    destruct (federation_handle_new_event_impl event' s2) as [s3 | err];
      [| exact Hin].
    unfold calls. rewrite run_trace_app. cbn [snd trace].
    rewrite !fmap_app, !elem_of_app. by left; left.
  - intros ev. fold event'. rewrite Hrun.
    destruct (federation_handle_new_event_impl event' s2) as [s3 | err];
      [| done].
    apply run_broadcast_step_returns.
Qed.

(** *** Membership notifications *)

Lemma unrecognized_eqb (v : JVal) :
  ~ recognized v ->
  jval_eqb v (JStr Membership.INVITE) = false
  /\ jval_eqb v (JStr Membership.JOIN) = false
  /\ jval_eqb v (JStr Membership.LEAVE) = false.
Proof.
  intros Hv. unfold recognized in Hv.
  repeat split; apply bool_decide_eq_false_2; intros ->; tauto.
Qed.

(** C9.  With a membership value other than invite, join and leave,
    [_inject_membership_msg] raises error 500 without issuing any call, so
    that a [change_membership] with [broadcast_msg] whose membership update
    went through ends with that error and its last call is the
    notification of the membership event itself: no message event is built,
    persisted or forwarded.  With one of the three recognized values the
    text message of user "_homeserver_" is built, stamped and sent with
    authorization suppressed: under the lock of the room it is persisted
    and handed to federation with the joined hosts as destinations, and no
    authorization check is among the calls. *)
Theorem unknown_membership_is_fatal
        (event : Event) (do_auth : bool) (s s1 : St)
        (room source target m : string) (v : JVal) :
  (~ recognized v ->
   forall w : World St,
     run (_inject_membership_msg room source target v) w
     = (Raised (RoomError 500 ("Unknown membership value " +:+ jval_str v)),
        w))
  /\
  (recognized v ->
   let built := notification room source target v (time_ms_impl s).1 in
   let stamped := time_ms_impl (time_ms_impl s).2 in
   let message :=
     set_content (<["hsob_ts" := JInt stamped.1]> (content built)) built in
   let stored := persist_event_impl message stamped.2 in
   let message' :=
     set_destinations (get_joined_hosts_for_room_impl room stored.2)
                      message in
   trace (run (_inject_membership_msg room source target v) (start s)).2
   = [(time_ms, []);
      (time_ms, []);
      (room_lock_lock room, []);
      (persist_event message, [room]);
      (get_joined_hosts_for_room room, [room]);
      (federation_handle_new_event message', [room])]
     ++ match federation_handle_new_event_impl message' stored.2 with
        | Ok _ => [(notifier_on_new_event message' stored.1, [room])]
        | Exn _ => []
        end
     ++ [(room_lock_release room, [room])])
  /\
  (~ recognized v ->
   membership event = Some m ->
   m <> Membership.JOIN ->
   target_user_id event = Some target ->
   content event !! "membership" = Some v ->
   authorized do_auth event s ->
   state_handle_new_event_impl event s = Ok s1 ->
   let room := room_id event in
   let store_id :=
     (store_room_member_impl target (user_id event) room (content event)
                             v s1).1 in
   let s2 :=
     (store_room_member_impl target (user_id event) room (content event)
                             v s1).2 in
   let event' :=
     set_destinations
       (list_set (get_joined_hosts_for_room_impl room s2)) event in
   forall s3,
     federation_handle_new_event_impl event' s2 = Ok s3 ->
     run (change_membership event true do_auth) (start s)
     = (Raised (RoomError 500 ("Unknown membership value " +:+ jval_str v)),
        mkWorld (notifier_on_new_event_impl event' store_id s3) []
                ([(room_lock_lock room, [])]
                 ++ auth_step do_auth event
                 ++ [(state_handle_new_event event, [room]);
                     (store_room_member target (user_id event) room
                                        (content event) v, [room]);
                     (get_joined_hosts_for_room room, [room]);
                     (room_lock_release room, [room]);
                     (federation_handle_new_event event', []);
                     (notifier_on_new_event event' store_id, [])]))).
Proof.
  split; [| split].
  - intros Hv w. destruct (unrecognized_eqb v Hv) as (Hi & Hj & Hl).
    unfold _inject_membership_msg. by rewrite Hi, Hj, Hl.
  - intros Hv built stamped message stored message'.
    subst built stamped message stored message'.
    unfold _inject_membership_msg, notification, notification_body.
    assert (Hbody : forall A (k : string -> Prog A),
      (if jval_eqb v (JStr Membership.INVITE)
       then mret (source +:+ " invited " +:+ target +:+ " to the room.")
       else if jval_eqb v (JStr Membership.JOIN)
       then mret (target +:+ " joined the room.")
       else if jval_eqb v (JStr Membership.LEAVE)
       then mret (target +:+ " left the room.")
       else Raise (RoomError 500 ("Unknown membership value "
                                  +:+ jval_str v))) ≫= k
      = k (if jval_eqb v (JStr Membership.INVITE)
           then source +:+ " invited " +:+ target +:+ " to the room."
           else if jval_eqb v (JStr Membership.JOIN)
           then target +:+ " joined the room."
           else target +:+ " left the room.")).
    { intros A k. destruct Hv as [-> | [-> | ->]]; reflexivity. }
    rewrite Hbody. clear Hbody. cbn.
    destruct (time_ms_impl s) as [now sa]. cbn.
    destruct (time_ms_impl sa) as [now' sb]. run_simpl.
    destruct (persist_event_impl _ sb) as [n sc]. run_simpl.
    destruct (federation_handle_new_event_impl _ sc); by run_simpl.
  - intros Hv Hm Hne Ht Hc Hauth Hstate room0 store_id s2 event' s3 Hfed.
    subst room0 store_id s2 event'.
    destruct (unrecognized_eqb v Hv) as (Hi & Hj & Hl).
    unfold change_membership, _do_membership_update, _inject_membership_msg,
      getitem, auth_step.
    rewrite Hm, Hc. cbn. rewrite (string_eqb_false _ _ Hne).
    assert (Hau : do_auth = true -> auth_check_impl event s = None)
      by exact Hauth.
    destruct do_auth; run_simpl; rewrite ?(Hau eq_refl); run_simpl;
      rewrite Hstate, Ht; run_simpl;
      destruct (store_room_member_impl _ _ _ _ _ s1) as [n s2]; run_simpl;
      rewrite Hi, Hj in *; run_simpl; cbn in Hfed; rewrite Hfed; run_simpl;
      rewrite Ht, Hc; run_simpl; rewrite Hi, Hj, Hl; reflexivity.
Qed.

(** *** Room creation *)

Lemma run_generate_collides (user : string) (config : gmap string JVal)
      (visibility : JVal) (k : nat) (s s1 : St)
      (tr : list (Call * list string)) :
  config !! "visibility" = Some visibility ->
  collides user (jval_eqb visibility (JStr "public")) k s s1 tr ->
  forall (fuel attempts : nat) (pre : list (Call * list string)),
    (attempts + k <= 5)%nat ->
    run (generate_room_id (k + fuel) attempts user config) (mkWorld s [] pre)
    = run (generate_room_id fuel (attempts + k) user config)
          (mkWorld s1 [] (pre ++ tr)).
Proof.
  intros Hvis Hcol.
  induction Hcol as [s | k s gen s1 code msg s' tr Hgen Hstore Hcol IH];
    intros fuel attempts pre Hle.
  - by rewrite Nat.add_0_r, app_nil_r.
  - cbn [Nat.add generate_room_id].
    assert (Hlt : (attempts <? 5)%nat = true) by (apply Nat.ltb_lt; lia).
    rewrite Hlt. unfold getitem. rewrite Hvis. cbn. rewrite Hgen. cbn.
    rewrite Hstore. cbn.
    rewrite (IH fuel (Datatypes.S attempts)) by lia.
    rewrite <- !app_assoc. cbn.
    by replace (attempts + Datatypes.S k)%nat
         with (Datatypes.S (attempts + k)) by lia.
Qed.

Lemma generated_id_truthy (s : St) :
  truthy (Some (random_string_impl 18 s).1) = true.
Proof.
  cbn. pose proof (random_string_length 18 s) as Hlen.
  destruct (random_string_impl 18 s).1; [discriminate | reflexivity].
Qed.

(** C4.  Without a room id, [create_room] draws an id and stores the room,
    drawing a new id each time the store rejects one with a [StoreError].
    When the first [k] ids are rejected and the next one is accepted, with
    [k < 5], it stops drawing, drives the creator's join for the accepted
    id, and returns that id when the join returns.  When five ids in a row
    are rejected it raises StoreError 500 "Couldn't generate a room ID."
    after exactly these five attempts: no sixth id is drawn, no room has
    been stored and no join is attempted. *)
Theorem create_room_bounded_retry
        (user : string) (room_id : option string) (config : gmap string JVal)
        (visibility : JVal) (k : nat) (s s1 : St)
        (tr : list (Call * list string)) :
  truthy room_id = false ->
  config !! "visibility" = Some visibility ->
  let public := jval_eqb visibility (JStr "public") in
  collides user public k s s1 tr ->
  ((k < 5)%nat ->
   forall gen s2 s3,
     random_string_impl 18 s1 = (gen, s2) ->
     store_room_impl gen user public s2 = Ok s3 ->
     let join := run (change_membership (creator_join user gen) true false)
                     (start s3) in
     run (create_room user room_id config) (start s)
     = (returning gen join.1,
        mkWorld (env join.2) (held join.2)
                (tr ++ [(random_string 18, []);
                        (store_room gen user public, [])]
                    ++ trace join.2)))
  /\
  (k = 5%nat ->
   run (create_room user room_id config) (start s)
   = (Raised (StoreError 500 "Couldn't generate a room ID."),
      mkWorld s1 [] tr)).
Proof.
  intros Hrid Hvis public Hcol. subst public. split.
  - intros Hlt gen s2 s3 Hgen Hstore join.
    unfold create_room. rewrite Hrid.
    rewrite !run_bind.
    replace 5%nat with (k + (5 - k))%nat at 1 by lia.
    unfold start at 1.
    rewrite (run_generate_collides user config visibility k s s1 tr Hvis Hcol)
      by lia.
    destruct (5 - k)%nat as [| fuel] eqn:Hfuel; [lia |].
    cbn [generate_room_id].
    assert (Hlt' : (0 + k <? 5)%nat = true) by (apply Nat.ltb_lt; lia).
    rewrite Hlt'. unfold getitem. rewrite Hvis. cbn -[change_membership].
    rewrite Hgen. cbn -[change_membership]. rewrite Hstore.
    cbn -[change_membership].
    pose proof (generated_id_truthy s1) as Htr. rewrite Hgen in Htr.
    cbn in Htr. rewrite Htr. cbn -[change_membership].
    rewrite run_bind.
    rewrite (run_trace_app (change_membership _ _ _)).
    fold (creator_join user gen). fold (start s3). fold join.
    cbn zeta. rewrite <- !app_assoc.
    by destruct join as [[ev | e |] w].
  - intros ->. unfold create_room. rewrite Hrid.
    rewrite !run_bind.
    change 5%nat with (5 + 0)%nat at 1. unfold start.
    rewrite (run_generate_collides user config visibility 5 s s1 tr Hvis Hcol)
      by lia.
    reflexivity.
Qed.

(** *** Concurrent invocations *)

Lemma guarded_bind {A B : Type} (h h' h'' : list string) (p : Prog A)
      (f : A -> Prog B) :
  guarded h' h p -> (forall a, guarded h'' h' (f a)) ->
  guarded h'' h (p ≫= f).
Proof.
  intros Hp Hf. induction Hp as [a | h e | h c k Hc Hk IH].
  - apply Hf.
  - constructor.
  - change (guarded h'' h (Do c (fun r => k r ≫= f))). constructor; auto.
Qed.

Lemma guarded_call (h : list string) (c : Call) :
  (forall room, critical_room c = Some room -> room ∈ h) ->
  guarded (after_call c h) h (call c).
Proof. intros Hc. constructor; [done |]. intros [v | e]; constructor. Qed.

Lemma guarded_releasing {A : Type} (room : string) (h h' : list string)
      (p : Prog A) :
  guarded h' h p -> guarded (unhold room h') h (releasing room p).
Proof.
  intros Hp. induction Hp as [a | h e | h c k Hc Hk IH]; cbn.
  - constructor; [done |]. intros _. constructor.
  - constructor; [done |]. intros _. constructor.
  - constructor; [done |]. intros r. apply IH.
Qed.

Lemma guarded_with_room_lock {A : Type} (room : string) (p : Prog A) :
  guarded [room] [room] p -> guarded [] [] (with_room_lock room p).
Proof.
  intros Hp. unfold with_room_lock.
  apply (guarded_bind [] [room]).
  - by apply (guarded_call [] (room_lock_lock room)).
  - intros _. replace (@nil string) with (unhold room [room]) at 1.
    + by apply guarded_releasing.
    + cbn. by rewrite String.eqb_refl.
Qed.

(** Holding the room lock, or with nothing to protect. *)
Ltac guarded_side :=
  let room := fresh "room" in
  let Hroom := fresh "Hroom" in
  intros room Hroom; cbn in Hroom; try discriminate Hroom;
  injection Hroom as <-; cbn; apply list_elem_of_here.

Lemma guarded_attr {A : Type} (h : list string) (name : string)
      (o : option A) :
  guarded h h (attr name o).
Proof. destruct o; constructor. Qed.

Lemma guarded_local {A : Type} (h : list string) (name : string)
      (o : option A) :
  guarded h h (local name o).
Proof. destruct o; constructor. Qed.

Lemma guarded_getitem (h : list string) (d : gmap string JVal) (key : string) :
  guarded h h (getitem d key).
Proof. unfold getitem. destruct (d !! key); constructor. Qed.

Lemma guarded_lift_result {A : Type} (h : list string) (r : result A) :
  guarded h h (lift_result r).
Proof. destruct r; constructor. Qed.

Ltac walk_guarded :=
  repeat first
    [ progress cbn [after_call]
    | apply guarded_Ret
    | apply guarded_Raise
    | apply guarded_attr
    | apply guarded_local
    | apply guarded_getitem
    | apply guarded_lift_result
    | apply guarded_with_room_lock
    | match goal with
      | |- guarded _ ?h (call ?c) =>
          apply (guarded_call h c); guarded_side
      | |- guarded _ _ (if ?b then _ else _) => destruct b
      | |- guarded _ _ (match ?x with _ => _ end) => destruct x
      | |- guarded _ _ (let _ := _ in _) => cbn zeta
      end
    | eapply guarded_bind; [| intros ?] ].




Lemma _do_membership_update_guarded (event : Event) :
  guarded [room_id event] [room_id event] (_do_membership_update event).
Proof.
  unfold _do_membership_update. walk_guarded.
Qed.

Lemma _inject_membership_msg_guarded (room source target : string)
      (v : JVal) :
  guarded [] [] (_inject_membership_msg room source target v).
Proof.
  unfold _inject_membership_msg. walk_guarded.
Qed.



Lemma guarded_critical {A : Type} (h h' : list string) (c : Call)
      (k : result (Resp c) -> Prog A) :
  guarded h' h (Do c k) ->
  forall room, critical_room c = Some room -> room ∈ h.
Proof.
  intros Hg.
  refine (match Hg in guarded _ h0 p0
                return match p0 with
                       | Do c0 k0 =>
                           forall room, critical_room c0 = Some room -> room ∈ h0
                       | _ => True
                       end
          with
          | guarded_Ret _ _ => I
          | guarded_Raise _ _ _ => I
          | guarded_Do _ _ _ _ Hc _ => Hc
          end).
Qed.


Lemma elem_of_all_held (ts : list Task) (room : string) :
  room ∈ all_held ts <->
  exists i t, ts !! i = Some t /\ room ∈ task_held t.
Proof.
  induction ts as [| t ts IH]; cbn.
  - split; [by intros ?%elem_of_nil | by intros (i & t & ? & _)].
  - rewrite elem_of_app, IH. split.
    + intros [Ht | (i & t' & Hi & Ht')].
      * by exists 0%nat, t.
      * by exists (Datatypes.S i), t'.
    + intros ([| i] & t' & Hi & Ht'); cbn in Hi.
      * left. congruence.
      * right. by exists i, t'.
Qed.


Lemma is_held_spec (room : string) (h : list string) :
  is_held room h = true <-> room ∈ h.
Proof.
  unfold is_held. induction h as [| r h IH]; cbn.
  - split; [done | by intros ?%elem_of_nil].
  - rewrite orb_true_iff, IH, elem_of_cons, String.eqb_eq. done.
Qed.





Lemma reachable_trans (p0 p1 p2 : Pool St) :
  reachable p0 p1 -> reachable p1 p2 -> reachable p0 p2.
Proof.
  intros H01 H12. induction H12 as [| p i p' _ IH Hstep]; [done |].
  by eapply reachable_step.
Qed.

Lemma run_schedule_reachable (schedule : list nat) (p0 p : Pool St) :
  run_schedule schedule p0 = Some p -> reachable p0 p.
Proof.
  revert p0. induction schedule as [| i schedule IH]; intros p0 Hrun.
  - injection Hrun as <-. constructor.
  - cbn in Hrun. destruct (step i p0) as [p1 |] eqn:Hstep; [| done].
    eapply reachable_trans; [| by apply IH].
    eapply reachable_step; [constructor | exact Hstep].
Qed.

Lemma respond_blocked (c : Call) (s : St) (h : list string) :
  respond c s h = None ->
  exists room, c = room_lock_lock room /\ is_held room h = true.
Proof.
  destruct c as [| | room | | | | | | | | | | | | |]; cbn -[is_held lift_write];
    try done; try (by repeat case_match).
  - destruct (is_held room h) eqn:Hheld; [| done]. intros _. by exists room.
  - unfold lift_write. by case_match.
  - unfold lift_write. by case_match.
  - unfold lift_write. by case_match.
  - unfold lift_write. by case_match.
Qed.

Lemma respond_after_call (c : Call) (s s' : St) (h h' : list string)
      (r : result (Resp c)) :
  respond c s h = Some (r, s', h') -> h' = after_call c h.
Proof.
  destruct c; cbn -[is_held lift_write]; unfold lift_write;
    repeat case_match; congruence.
Qed.

(** An invocation scheduled alone makes the calls [run] makes, and ends as
    [run] ends. *)
Lemma alone_agrees_with_run (p : Prog Event) (s : St) (h : list string)
      (tr : list (Call * list string)) :
  exists schedule q,
    let w := (run p (mkWorld s h tr)).2 in
    run_schedule schedule (mkPool [mkTask p h] s)
    = Some (mkPool [mkTask q (held w)] (env w))
    /\ match (run p (mkWorld s h tr)).1 with
       | Returned a => q = Ret a
       | Raised e => q = Raise e
       | Deadlock =>
           is_Some (pending (mkPool [mkTask q (held w)] (env w)) 0)
           /\ step 0 (mkPool [mkTask q (held w)] (env w)) = None
       end.
Proof.
  revert s h tr. induction p as [a | e | c k IH]; intros s h tr.
  - by exists [], (Ret a).
  - by exists [], (Raise e).
  - cbn [run env held trace].
    destruct (respond c s h) as [[[r s1] h1] |] eqn:Hresp.
    + destruct (IH r s1 h1 (tr ++ [(c, h)])) as (schedule & q & Hrun & Hend).
      exists (0%nat :: schedule), q. split; [| exact Hend].
      cbn [run_schedule]. unfold step.
      cbn [tasks shared lookup list_lookup all_held task_held].
      rewrite app_nil_r, Hresp.
      rewrite <- (respond_after_call c s s1 h h1 r Hresp). exact Hrun.
    + exists [], (Do c k). cbn. split; [done |]. split; [by eexists |].
      unfold step. cbn [tasks shared lookup list_lookup all_held task_held].
      by rewrite app_nil_r, Hresp.
Qed.

(** *** Critical sections *)

































(** *** Lock discipline of the handlers *)

Lemma disciplined_bind {A B : Type} (hx h h' h'' : list string) (p : Prog A)
      (f : A -> Prog B) :
  disciplined hx h' h p -> (forall a, disciplined hx h'' h' (f a)) ->
  disciplined hx h'' h (p ≫= f).
Proof.
  intros Hp Hf. induction Hp as [a | e | h c k Hc Hk IH].
  - apply Hf.
  - constructor.
  - change (disciplined hx h'' h (Do c (fun r => k r ≫= f))).
    constructor; auto.
Qed.

Lemma disciplined_call (h : list string) (c : Call) :
  lock_op c = false -> disciplined h h h (call c).
Proof.
  intros Hc. constructor.
  - intros room ->. discriminate Hc.
  - intros [v | e] _; replace (after_call c h) with h
      by (by destruct c); constructor.
Qed.

Lemma disciplined_releasing {A : Type} (room : string) (hx h h' : list string)
      (p : Prog A) :
  disciplined hx h' h p ->
  disciplined (unhold room hx) (unhold room h') h (releasing room p).
Proof.
  intros Hp. induction Hp as [a | e | h c k Hc Hk IH]; cbn.
  - constructor; [done |]. intros _ _. constructor.
  - constructor; [done |]. intros _ _. constructor.
  - constructor; [done |]. intros r Hr. by apply IH.
Qed.

Lemma disciplined_with_room_lock {A : Type} (room : string) (p : Prog A) :
  disciplined [room] [room] [room] p ->
  disciplined [] [] [] (with_room_lock room p).
Proof.
  intros Hp. unfold with_room_lock.
  change (disciplined [] [] []
            (Do (room_lock_lock room)
                (fun r => match r with Ok v => Ret v | Exn e => Raise e end
                          ≫= fun _ => releasing room p))).
  constructor; [done |]. intros [[] | e] Hr; [| by discriminate (Hr eq_refl)].
  cbn [after_call].
  pose proof (disciplined_releasing room _ _ _ p Hp) as Hrel.
  assert (Hun : unhold room [room] = []) by (cbn; by rewrite String.eqb_refl).
  rewrite Hun in Hrel. exact Hrel.
Qed.

Lemma disciplined_try_except {A : Type} (hx h h' : list string) (p : Prog A)
      (catches : Error -> bool) (handler : Prog A) :
  disciplined hx h' h p -> disciplined hx h' hx handler ->
  disciplined hx h' h (try_except p catches handler).
Proof.
  intros Hp Hh. induction Hp as [a | e | h c k Hc Hk IH]; cbn.
  - constructor.
  - destruct (catches e); [done | constructor].
  - constructor; auto.
Qed.

Lemma disciplined_attr {A : Type} (h : list string) (name : string)
      (o : option A) :
  disciplined h h h (attr name o).
Proof. destruct o; constructor. Qed.

Lemma disciplined_local {A : Type} (h : list string) (name : string)
      (o : option A) :
  disciplined h h h (local name o).
Proof. destruct o; constructor. Qed.

Lemma disciplined_getitem (h : list string) (d : gmap string JVal)
      (key : string) :
  disciplined h h h (getitem d key).
Proof. unfold getitem. destruct (d !! key); constructor. Qed.

Lemma disciplined_lift_result {A : Type} (h : list string) (r : result A) :
  disciplined h h h (lift_result r).
Proof. destruct r; constructor. Qed.

Ltac walk_disciplined :=
  repeat first
    [ apply disciplined_Ret
    | apply disciplined_Raise
    | apply disciplined_attr
    | apply disciplined_local
    | apply disciplined_getitem
    | apply disciplined_lift_result
    | apply disciplined_with_room_lock
    | match goal with
      | |- disciplined _ _ ?h (call ?c) =>
          apply (disciplined_call h c); reflexivity
      | |- disciplined _ _ _ (if ?b then _ else _) => destruct b
      | |- disciplined _ _ _ (match ?x with _ => _ end) => destruct x
      | |- disciplined _ _ _ (let _ := _ in _) => cbn zeta
      end
    | eapply disciplined_bind; [| intros ?] ].

Lemma send_message_disciplined (event : Event)
      (suppress_auth stamp_event : bool) :
  disciplined [] [] [] (send_message event suppress_auth stamp_event).
Proof.
  unfold send_message.
  eapply disciplined_bind;
    [destruct stamp_event; unfold stamp; walk_disciplined |].
  intros ev. walk_disciplined.
Qed.

Lemma send_feedback_disciplined (event : Event) (stamp_event : bool) :
  disciplined [] [] [] (send_feedback event stamp_event).
Proof.
  unfold send_feedback.
  eapply disciplined_bind;
    [destruct stamp_event; unfold stamp; walk_disciplined |].
  intros ev. walk_disciplined.
Qed.

Lemma _inject_membership_msg_disciplined (room source target : string)
      (v : JVal) :
  disciplined [] [] [] (_inject_membership_msg room source target v).
Proof.
  unfold _inject_membership_msg.
  eapply disciplined_bind; [walk_disciplined |]. intros body. cbn zeta.
  eapply disciplined_bind; [walk_disciplined |]. intros now.
  eapply disciplined_bind; [apply send_message_disciplined |].
  intros _. walk_disciplined.
Qed.

Lemma _do_membership_update_disciplined (event : Event) :
  disciplined [room_id event] [room_id event] [room_id event]
              (_do_membership_update event).
Proof. unfold _do_membership_update. walk_disciplined. Qed.

Lemma change_membership_disciplined (event : Event)
      (broadcast_msg do_auth : bool) :
  disciplined [] [] [] (change_membership event broadcast_msg do_auth).
Proof.
  unfold change_membership.
  eapply disciplined_bind; [walk_disciplined |]. intros m.
  eapply disciplined_bind.
  - destruct (String.eqb m Membership.JOIN).
    + eapply disciplined_bind.
      * apply disciplined_with_room_lock.
        eapply disciplined_bind; [walk_disciplined |]. intros _.
        eapply disciplined_bind; [walk_disciplined |]. intros target.
        eapply disciplined_bind; [walk_disciplined |]. intros prev.
        eapply disciplined_bind; [walk_disciplined |]. intros [dance inviter].
        destruct (negb dance); [| walk_disciplined].
        eapply disciplined_bind; [walk_disciplined |]. intros _.
        eapply disciplined_bind;
          [apply _do_membership_update_disciplined |].
        intros [ev sid]. walk_disciplined.
      * intros l. walk_disciplined.
    + eapply disciplined_bind.
      * apply disciplined_with_room_lock.
        eapply disciplined_bind; [walk_disciplined |]. intros _.
        eapply disciplined_bind; [walk_disciplined |]. intros _.
        apply _do_membership_update_disciplined.
      * intros [ev sid]. walk_disciplined.
  - intros ev. eapply disciplined_bind; [| intros _; walk_disciplined].
    destruct broadcast_msg; [| walk_disciplined].
    eapply disciplined_bind; [walk_disciplined |]. intros target.
    eapply disciplined_bind; [walk_disciplined |]. intros v.
    apply _inject_membership_msg_disciplined.
Qed.

Lemma generate_room_id_disciplined (fuel attempts : nat) (user : string)
      (config : gmap string JVal) :
  disciplined [] [] [] (generate_room_id fuel attempts user config).
Proof.
  revert attempts. induction fuel as [| fuel IH]; intros attempts;
    cbn [generate_room_id].
  - constructor.
  - destruct (attempts <? 5)%nat; [| constructor].
    apply disciplined_try_except; [walk_disciplined | apply IH].
Qed.

Lemma create_room_disciplined (user : string) (room_id : option string)
      (config : gmap string JVal) :
  disciplined [] [] [] (create_room user room_id config).
Proof.
  unfold create_room.
  eapply disciplined_bind.
  - destruct (truthy room_id).
    + walk_disciplined.
    + eapply disciplined_bind; [apply generate_room_id_disciplined |].
      intros rid. walk_disciplined.
  - intros rid. cbn zeta.
    eapply disciplined_bind; [apply change_membership_disciplined |].
    intros _. walk_disciplined.
Qed.

Lemma respond_lock_op_ok (c : Call) (s s' : St) (h h' : list string)
      (r : result (Resp c)) :
  respond c s h = Some (r, s', h') -> lock_op c = true -> is_ok r = true.
Proof.
  destruct c; cbn -[is_held]; try discriminate.
  - destruct (is_held room h); [done |]. by intros [= <- _ _].
  - by intros [= <- _ _].
Qed.

Lemma run_disciplined {A : Type} (hx h h' : list string) (p : Prog A) :
  disciplined hx h' h p ->
  forall (s : St) (tr : list (Call * list string)),
    match (run p (mkWorld s h tr)).1 with
    | Returned _ => held (run p (mkWorld s h tr)).2 = h'
    | Raised _ => held (run p (mkWorld s h tr)).2 = hx
    | Deadlock => False
    end.
Proof.
  intros Hp. induction Hp as [a | e | h c k Hc Hk IH]; intros s tr;
    [done | done |].
  cbn [run env held trace].
  destruct (respond c s h) as [[[r s1] h1] |] eqn:Hresp.
  - rewrite (respond_after_call c s s1 h h1 r Hresp).
    apply IH. by eapply respond_lock_op_ok.
  - destruct (respond_blocked c s h Hresp) as (room & -> & Hheld).
    rewrite (Hc room eq_refl) in Hheld. discriminate Hheld.
Qed.

(** X1.  Whatever the collaborators answer, a [send_message],
    [send_feedback], [change_membership] or [create_room] started with no
    lock held never waits for a lock it holds itself, and holds no lock when
    it ends, whether it returns or raises. *)
Theorem handlers_release_lock {A : Type} (p : Prog A) (s : St) :
  locking_handler A p ->
  (run p (start s)).1 <> Deadlock /\ held (run p (start s)).2 = [].
Proof.
  intros Hp.
  assert (Hd : disciplined [] [] [] p).
  { destruct Hp.
    - apply send_message_disciplined.
    - apply send_feedback_disciplined.
    - apply change_membership_disciplined.
    - apply create_room_disciplined. }
  pose proof (run_disciplined [] [] [] p Hd s []) as Hrun.
  fold (start s) in Hrun.
  destruct (run p (start s)).1; [done | done | done].
Qed.

Lemma disciplined_next {A : Type} (hx h h' : list string) (c : Call)
      (k : result (Resp c) -> Prog A) :
  disciplined hx h' h (Do c k) ->
  (forall room, c = room_lock_lock room -> h = [])
  /\ (forall r, (lock_op c = true -> is_ok r = true) ->
                disciplined hx h' (after_call c h) (k r)).
Proof.
  intros Hd.
  refine (match Hd in disciplined _ _ h0 p0
                return match p0 with
                       | Do c0 k0 =>
                           (forall room, c0 = room_lock_lock room -> h0 = [])
                           /\ (forall r,
                                 (lock_op c0 = true -> is_ok r = true) ->
                                 disciplined hx h' (after_call c0 h0) (k0 r))
                       | _ => True
                       end
          with
          | disciplined_Ret _ _ _ => I
          | disciplined_Raise _ _ _ => I
          | disciplined_Do _ _ _ _ _ Hc Hk => conj Hc Hk
          end).
Qed.

Lemma disciplined_finished {A : Type} (h : list string) (p : Prog A) :
  disciplined [] [] h p ->
  h = [] \/ exists c k, p = Do c k /\ forall room, c <> room_lock_lock room.
Proof.
  intros Hd. destruct Hd as [a | e | h c k Hc Hk]; [by left | by left |].
  destruct h as [| r h]; [by left |]. right. exists c, k. split; [done |].
  intros room ->. by specialize (Hc room eq_refl).
Qed.

Lemma step_disciplined (i : nat) (p p' : Pool St) :
  Forall (fun t => disciplined [] [] (task_held t) (task_prog t)) (tasks p) ->
  step i p = Some p' ->
  Forall (fun t => disciplined [] [] (task_held t) (task_prog t)) (tasks p').
Proof.
  intros Hd Hstep. unfold step in Hstep.
  destruct (tasks p !! i) as [[[a | e | c k] h] |] eqn:Hi; try done.
  destruct (respond c (shared p) (all_held (tasks p)))
    as [[[r s'] hh] |] eqn:Hresp; [| done].
  injection Hstep as <-. cbn.
  apply Forall_insert; [done |]. cbn.
  pose proof (proj1 (Forall_lookup _ _) Hd i _ Hi) as Hdi. cbn in Hdi.
  apply (disciplined_next [] h [] c k Hdi).
  by eapply respond_lock_op_ok.
Qed.

(** X2.  Invocations of [send_message], [send_feedback] and
    [change_membership] interleaved at their yields never deadlock: in
    every pool they reach, as long as some invocation has a call left to
    make, some invocation can make its next call. *)
Theorem pool_never_deadlocks (p0 p : Pool St) :
  Forall (fun t => invocation (task_prog t) /\ task_held t = []) (tasks p0) ->
  reachable p0 p ->
  (exists j c, pending p j = Some c) ->
  exists i, is_Some (step i p).
Proof.
  intros Hfresh Hreach.
  assert (Hd : Forall (fun t => disciplined [] [] (task_held t) (task_prog t))
                      (tasks p)).
  { induction Hreach as [| p i p' _ IH Hstep].
    - eapply Forall_impl; [exact Hfresh |]. intros [q h] [Hinv Hh].
      cbn in *. subst h. destruct Hinv.
      + apply send_message_disciplined.
      + apply send_feedback_disciplined.
      + apply change_membership_disciplined.
    - by eapply step_disciplined. }
  intros (j & c & Hj).
  destruct (step j p) as [p' |] eqn:Hstep; [by exists j |].
  unfold pending in Hj. unfold step in Hstep.
  destruct (tasks p !! j) as [[[a | e | c' k] h] |] eqn:Hlookj; try done.
  injection Hj as ->.
  destruct (respond c (shared p) (all_held (tasks p)))
    as [[[r s'] hh] |] eqn:Hresp; [done |].
  destruct (respond_blocked _ _ _ Hresp) as (room & -> & Hheld).
  apply is_held_spec, elem_of_all_held in Hheld as (i & [q hi] & Hi & Hroom).
  cbn in Hroom. exists i.
  pose proof (proj1 (Forall_lookup _ _) Hd i _ Hi) as Hdi. cbn in Hdi.
  destruct (disciplined_finished hi q Hdi) as [-> | (c' & k' & -> & Hnolock)];
    [by apply elem_of_nil in Hroom |].
  unfold step. rewrite Hi.
  destruct (respond c' (shared p) (all_held (tasks p)))
    as [[[r' s''] hh'] |] eqn:Hresp'; [by eexists |].
  destruct (respond_blocked _ _ _ Hresp') as (room' & -> & _).
  by destruct (Hnolock room').
Qed.

(** *** What room creation never does *)

Lemma issues_try_except {A : Type} (P : Call -> Prop) (p : Prog A)
      (catches : Error -> bool) (handler : Prog A) :
  issues P p -> issues P handler -> issues P (try_except p catches handler).
Proof.
  intros Hp Hh. induction Hp as [a | e | c k Hc Hk IH]; cbn.
  - constructor.
  - destruct (catches e); [done | constructor].
  - constructor; auto.
Qed.

Lemma issues_weaken {A : Type} (P Q : Call -> Prop) (p : Prog A) :
  (forall c, P c -> Q c) -> issues P p -> issues Q p.
Proof.
  intros HPQ Hp. induction Hp as [a | e | c k Hc Hk IH]; constructor; auto.
Qed.

Lemma issues_attr {A : Type} (P : Call -> Prop) (name : string)
      (o : option A) :
  issues P (attr name o).
Proof. destruct o; constructor. Qed.

Lemma issues_local {A : Type} (P : Call -> Prop) (name : string)
      (o : option A) :
  issues P (local name o).
Proof. destruct o; constructor. Qed.

Lemma issues_getitem (P : Call -> Prop) (d : gmap string JVal) (key : string) :
  issues P (getitem d key).
Proof. unfold getitem. destruct (d !! key); constructor. Qed.

Lemma issues_lift_result {A : Type} (P : Call -> Prop) (r : result A) :
  issues P (lift_result r).
Proof. destruct r; constructor. Qed.

Ltac by_cases := first [reflexivity | split; reflexivity].

Ltac compose_issues :=
  repeat first
    [ apply issues_Ret
    | apply issues_Raise
    | apply issues_attr
    | apply issues_local
    | apply issues_getitem
    | apply issues_lift_result
    | apply issues_with_room_lock; [by_cases | by_cases |]
    | match goal with
      | |- issues _ (call ?c) => apply (issues_call _ c); by_cases
      | |- issues _ (if ?b then _ else _) => destruct b
      | |- issues _ (match ?x with _ => _ end) => destruct x
      | |- issues _ (let _ := _ in _) => cbn zeta
      end
    | apply issues_bind; [| intros ?] ].

Lemma send_message_unchecked (event : Event) (stamp_event : bool) :
  issues unchecked
         (send_message event true stamp_event).
Proof.
  unfold send_message. apply issues_bind.
  - destruct stamp_event; unfold stamp; compose_issues.
  - intros ev. cbn [negb]. compose_issues.
Qed.

Lemma change_membership_unchecked (event : Event) (broadcast_msg : bool) :
  issues unchecked
         (change_membership event broadcast_msg false).
Proof.
  unfold change_membership. apply issues_bind; [compose_issues |].
  intros m. apply issues_bind.
  - destruct (String.eqb m Membership.JOIN).
    + apply issues_bind.
      * apply issues_with_room_lock; [by_cases | by_cases |].
        apply issues_bind; [compose_issues |]. intros _.
        apply issues_bind; [compose_issues |]. intros target.
        apply issues_bind; [compose_issues |]. intros prev.
        apply issues_bind; [compose_issues |]. intros [dance inviter].
        destruct (negb dance); [| compose_issues].
        apply issues_bind; [compose_issues |]. intros _.
        apply issues_bind;
          [unfold _do_membership_update; compose_issues |].
        intros [ev sid]. compose_issues.
      * intros l. compose_issues.
    + apply issues_bind.
      * apply issues_with_room_lock; [by_cases | by_cases |].
        apply issues_bind; [compose_issues |]. intros _.
        apply issues_bind; [compose_issues |]. intros _.
        unfold _do_membership_update. compose_issues.
      * intros [ev sid]. compose_issues.
  - intros ev. apply issues_bind; [| intros _; compose_issues].
    destruct broadcast_msg; [| compose_issues].
    apply issues_bind; [compose_issues |]. intros target.
    apply issues_bind; [compose_issues |]. intros v.
    unfold _inject_membership_msg.
    apply issues_bind; [compose_issues |]. intros body. cbn zeta.
    apply issues_bind; [compose_issues |]. intros now.
    apply issues_bind; [apply send_message_unchecked | intros _].
    compose_issues.
Qed.

Lemma generate_room_id_unchecked (fuel attempts : nat) (user : string)
      (config : gmap string JVal) :
  issues (fun c => is_auth_check c = false)
         (generate_room_id fuel attempts user config).
Proof.
  revert attempts. induction fuel as [| fuel IH]; intros attempts;
    cbn [generate_room_id].
  - constructor.
  - destruct (attempts <? 5)%nat; [| constructor].
    apply issues_try_except; [compose_issues | apply IH].
Qed.

(** X3.  [create_room] never consults authorization: whatever its
    arguments and whatever the collaborators answer, no [auth.check] is
    among the calls it issues, neither for the creator's join (made with
    [do_auth=False]) nor for the membership message that follows (sent with
    [suppress_auth=True]). *)
Theorem create_room_never_authorizes
        (user : string) (room_id : option string) (config : gmap string JVal)
        (s : St) :
  Forall (fun c => is_auth_check c = false)
         (calls (run (create_room user room_id config) (start s)).2).
Proof.
  assert (Hissues : issues (fun c => is_auth_check c = false)
                           (create_room user room_id config)).
  { unfold create_room. apply issues_bind.
    - destruct (truthy room_id).
      + compose_issues.
      + apply issues_bind; [apply generate_room_id_unchecked |].
        intros rid. compose_issues.
    - intros rid. cbn zeta.
      apply issues_bind;
        [eapply issues_weaken; [| apply change_membership_unchecked] |].
      + by intros c [Hc _].
      + intros _. compose_issues. }
  destruct (run_issues _ _ (start s) Hissues) as (ext & Htr & Hext).
  unfold calls. rewrite Htr. cbn. by apply Forall_fmap.
Qed.

(** *** Room creation with a given id, and what the loop does not retry *)

(** X4.  With a room id given, [create_room] stores the room once under
    that id.  When the store raises, whatever the error, the error
    propagates: no other id is tried and no join is made.  When the store
    accepts, the creator's join follows and [create_room] returns the given
    id when the join returns. *)
Theorem create_room_explicit_id
        (user rid : string) (config : gmap string JVal) (visibility : JVal)
        (s : St) :
  rid <> "" ->
  config !! "visibility" = Some visibility ->
  let public := jval_eqb visibility (JStr "public") in
  (forall err,
     store_room_impl rid user public s = Exn err ->
     run (create_room user (Some rid) config) (start s)
     = (Raised err, mkWorld s [] [(store_room rid user public, [])]))
  /\
  (forall s1,
     store_room_impl rid user public s = Ok s1 ->
     let join := run (change_membership (creator_join user rid) true false)
                     (start s1) in
     run (create_room user (Some rid) config) (start s)
     = (returning rid join.1,
        mkWorld (env join.2) (held join.2)
                ((store_room rid user public, []) :: trace join.2))).
Proof.
  intros Hrid Hvis public. subst public.
  assert (Htruthy : truthy (Some rid) = true).
  { cbn. by rewrite (string_eqb_false _ _ Hrid). }
  split.
  - intros err Hstore. unfold create_room, getitem.
    rewrite Htruthy, Hvis. cbn. by rewrite Hstore.
  - intros s1 Hstore join. unfold create_room, getitem.
    rewrite Htruthy, Hvis. rewrite !run_bind. cbn -[change_membership].
    rewrite Hstore. cbn -[change_membership].
    rewrite run_bind. rewrite (run_trace_app (change_membership _ _ _)).
    fold (creator_join user rid). fold (start s1). fold join. cbn zeta.
    by destruct join as [[ev | e |] w].
Qed.

(** X5.  A configuration without the key "visibility" makes [create_room]
    raise [KeyError]: with a room id given, before any call is issued;
    without one, after the first id has been drawn and before anything is
    stored, and the loop does not go on. *)
Theorem create_room_without_visibility
        (user : string) (room_id : option string) (config : gmap string JVal)
        (s : St) :
  config !! "visibility" = None ->
  run (create_room user room_id config) (start s)
  = if truthy room_id
    then (Raised (KeyError "visibility"), start s)
    else (Raised (KeyError "visibility"),
          mkWorld (random_string_impl 18 s).2 [] [(random_string 18, [])]).
Proof.
  intros Hvis. unfold create_room, getitem.
  destruct (truthy room_id).
  - by rewrite Hvis.
  - cbn. destruct (random_string_impl 18 s) as [gen s1]. cbn.
    unfold getitem. by rewrite Hvis.
Qed.

(** X6.  The retry loop of [create_room] catches [StoreError] only: when
    storing a generated id raises any other error, that error propagates
    after this one attempt and no further id is drawn. *)
Theorem create_room_retries_store_errors_only
        (user : string) (room_id : option string) (config : gmap string JVal)
        (visibility : JVal) (s s1 : St) (gen : string) (err : Error) :
  truthy room_id = false ->
  config !! "visibility" = Some visibility ->
  let public := jval_eqb visibility (JStr "public") in
  random_string_impl 18 s = (gen, s1) ->
  store_room_impl gen user public s1 = Exn err ->
  is_StoreError err = false ->
  run (create_room user room_id config) (start s)
  = (Raised err,
     mkWorld s1 [] [(random_string 18, []); (store_room gen user public, [])]).
Proof.
  intros Hrid Hvis public Hgen Hstore Herr. subst public.
  unfold create_room. rewrite Hrid. cbn. rewrite Hgen. cbn.
  unfold getitem. rewrite Hvis. cbn. rewrite Hstore. cbn. by rewrite Herr.
Qed.

(** *** Transitions other than JOIN *)

Lemma jval_eqb_false (a b : JVal) : a <> b -> jval_eqb a b = false.
Proof. intros Hne. by apply bool_decide_eq_false_2. Qed.

Lemma jval_eqb_invite_join :
  jval_eqb (JStr Membership.INVITE) (JStr Membership.JOIN) = false.
Proof. reflexivity. Qed.

(** The run of a transition other than JOIN, once the destinations [dests]
    that [_do_membership_update] computes are known. *)
Lemma change_membership_transition
      (event : Event) (broadcast_msg do_auth : bool) (s s1 : St)
      (m target : string) (v : JVal) :
  membership event = Some m ->
  m <> Membership.JOIN ->
  target_user_id event = Some target ->
  content event !! "membership" = Some v ->
  authorized do_auth event s ->
  state_handle_new_event_impl event s = Ok s1 ->
  v <> JStr Membership.JOIN ->
  let room := room_id event in
  let store_id :=
    (store_room_member_impl target (user_id event) room (content event)
                            v s1).1 in
  let s2 :=
    (store_room_member_impl target (user_id event) room (content event)
                            v s1).2 in
  let joined := get_joined_hosts_for_room_impl room s2 in
  forall dests,
    (v = JStr Membership.INVITE
     /\ exists u, UserID_from_string target = Ok u
                  /\ dests = joined ++ [domain u])
    \/ (v <> JStr Membership.INVITE /\ dests = joined) ->
    let event' := set_destinations (list_set dests) event in
    run (change_membership event broadcast_msg do_auth) (start s)
    = match federation_handle_new_event_impl event' s2 with
      | Ok s3 =>
          run (broadcast_step event' broadcast_msg)
              (mkWorld (notifier_on_new_event_impl event' store_id s3) []
                       (transition_trace do_auth event target v event'
                        ++ [(notifier_on_new_event event' store_id, [])]))
      | Exn err =>
          (Raised err,
           mkWorld s2 [] (transition_trace do_auth event target v event'))
      end.
Proof.
  intros Hm Hne Ht Hc Hauth Hstate Hvj room store_id s2 joined dests Hd event'.
  subst room store_id s2 joined event'.
  unfold change_membership, _do_membership_update, getitem, transition_trace,
    auth_step.
  rewrite Hm, Hc. cbn. rewrite (string_eqb_false _ _ Hne).
  assert (Hau : do_auth = true -> auth_check_impl event s = None)
    by exact Hauth.
  pose proof (jval_eqb_false _ _ Hvj) as Hj.
  destruct Hd as [(-> & u & Hu & ->) | (Hvi & ->)].
  - destruct do_auth; run_simpl; rewrite ?(Hau eq_refl); run_simpl;
      rewrite Hstate, Ht; run_simpl;
      destruct (store_room_member_impl _ _ _ _ _ s1) as [n s2]; run_simpl;
      rewrite Hu; run_simpl; rewrite jval_eqb_invite_join; run_simpl;
      destruct (federation_handle_new_event_impl _ s2); reflexivity.
  - pose proof (jval_eqb_false _ _ Hvi) as Hi.
    destruct do_auth; run_simpl; rewrite ?(Hau eq_refl); run_simpl;
      rewrite Hstate, Ht; run_simpl;
      destruct (store_room_member_impl _ _ _ _ _ s1) as [n s2]; run_simpl;
      rewrite Hi, Hj; run_simpl;
      destruct (federation_handle_new_event_impl _ s2); reflexivity.
Qed.

Lemma transition_trace_forward (do_auth : bool) (event : Event)
      (target : string) (v : JVal) (event' : Event) :
  (federation_handle_new_event event', [])
  ∈ transition_trace do_auth event target v event'.
Proof.
  unfold transition_trace. rewrite !elem_of_app. right. right.
  rewrite !elem_of_cons. tauto.
Qed.

Lemma transition_trace_write (do_auth : bool) (event : Event)
      (target : string) (v : JVal) (event' : Event) :
  List.filter is_membership_write
              (transition_trace do_auth event target v event').*1
  = [store_room_member target (user_id event) (room_id event)
                       (content event) v].
Proof. unfold transition_trace, auth_step. by destruct do_auth. Qed.

(** What a transition leaves in the trace, whether or not federation and
    the broadcast go through. *)
Lemma change_membership_transition_trace
      (event : Event) (broadcast_msg do_auth : bool) (s s1 : St)
      (m target : string) (v : JVal) (dests : list string) :
  membership event = Some m ->
  m <> Membership.JOIN ->
  target_user_id event = Some target ->
  content event !! "membership" = Some v ->
  authorized do_auth event s ->
  state_handle_new_event_impl event s = Ok s1 ->
  v <> JStr Membership.JOIN ->
  let room := room_id event in
  let s2 :=
    (store_room_member_impl target (user_id event) room (content event)
                            v s1).2 in
  let joined := get_joined_hosts_for_room_impl room s2 in
  (v = JStr Membership.INVITE
   /\ exists u, UserID_from_string target = Ok u
                /\ dests = joined ++ [domain u])
  \/ (v <> JStr Membership.INVITE /\ dests = joined) ->
  let event' := set_destinations (list_set dests) event in
  let done := run (change_membership event broadcast_msg do_auth) (start s) in
  (federation_handle_new_event event', []) ∈ trace done.2
  /\ List.filter is_membership_write (calls done.2)
     = [store_room_member target (user_id event) room (content event) v].
Proof.
  intros Hm Hne Ht Hc Hauth Hstate Hvj room s2 joined Hd event' done.
  pose proof (change_membership_transition event broadcast_msg do_auth s s1
                m target v Hm Hne Ht Hc Hauth Hstate Hvj dests Hd) as Hrun.
  cbn zeta in Hrun. fold room s2 joined event' done in Hrun.
  rewrite Hrun.
  destruct (federation_handle_new_event_impl event' s2) as [s3 | err].
  - rewrite run_trace_app. unfold calls. cbn [snd trace].
    destruct (run_issues _ (broadcast_step event' broadcast_msg)
                (mkWorld (notifier_on_new_event_impl event'
                   (store_room_member_impl target (user_id event) room
                      (content event) v s1).1 s3) [] [])
                (broadcast_step_no_write event' broadcast_msg))
      as (ext & -> & Hext).
    cbn [trace app]. split.
    + rewrite !elem_of_app. left. left. apply transition_trace_forward.
    + rewrite !fmap_app, !List.filter_app, transition_trace_write.
      by rewrite (filter_no_write ext Hext).
  - cbn [snd trace]. split.
    + apply transition_trace_forward.
    + unfold calls. cbn [trace]. apply transition_trace_write.
Qed.

(** X7.  An invite (the call being authorized and state reconciliation
    going through) stores one membership row and hands federation, with no
    lock held, the event with its destinations set to the set of the hosts
    the store reports as joined after the write together with the invited
    user's home server: a list without duplicates that has exactly these
    elements, in whatever order [list(set(...))] leaves them. *)
Theorem invite_reaches_invited_server
        (event : Event) (broadcast_msg do_auth : bool) (s s1 : St)
        (m target : string) (u : UserID) :
  membership event = Some m ->
  m <> Membership.JOIN ->
  target_user_id event = Some target ->
  content event !! "membership" = Some (JStr Membership.INVITE) ->
  authorized do_auth event s ->
  state_handle_new_event_impl event s = Ok s1 ->
  UserID_from_string target = Ok u ->
  let room := room_id event in
  let s2 :=
    (store_room_member_impl target (user_id event) room (content event)
                            (JStr Membership.INVITE) s1).2 in
  let joined := get_joined_hosts_for_room_impl room s2 in
  let done := run (change_membership event broadcast_msg do_auth) (start s) in
  (exists dests,
     NoDup dests
     /\ (forall h, h ∈ dests <-> h ∈ joined \/ h = domain u)
     /\ (federation_handle_new_event (set_destinations dests event), [])
        ∈ trace done.2)
  /\ List.filter is_membership_write (calls done.2)
     = [store_room_member target (user_id event) room (content event)
                          (JStr Membership.INVITE)].
Proof.
  intros Hm Hne Ht Hc Hauth Hstate Hu room s2 joined done.
  destruct (change_membership_transition_trace event broadcast_msg do_auth
              s s1 m target (JStr Membership.INVITE) (joined ++ [domain u])
              Hm Hne Ht Hc Hauth Hstate) as [Hfwd Hwrite].
  - discriminate.
  - left. split; [done |]. by exists u.
  - split; [| exact Hwrite].
    exists (list_set (joined ++ [domain u])).
    split; [apply list_set_NoDup |]. split; [| exact Hfwd].
    intros h. rewrite list_set_elem_of, elem_of_app.
    by rewrite list_elem_of_singleton.
Qed.

(** X8.  A transition whose membership is neither invite nor join, such
    as a leave, goes to the set of the hosts the store reports as joined
    after the write and to no other host: the destinations are a list
    without duplicates that has exactly these elements, the target user's
    home server is not added, and the target id is not even parsed. *)
Theorem leave_goes_to_joined_hosts_only
        (event : Event) (broadcast_msg do_auth : bool) (s s1 : St)
        (m target : string) (v : JVal) :
  membership event = Some m ->
  m <> Membership.JOIN ->
  target_user_id event = Some target ->
  content event !! "membership" = Some v ->
  v <> JStr Membership.INVITE ->
  v <> JStr Membership.JOIN ->
  authorized do_auth event s ->
  state_handle_new_event_impl event s = Ok s1 ->
  let room := room_id event in
  let s2 :=
    (store_room_member_impl target (user_id event) room (content event)
                            v s1).2 in
  let joined := get_joined_hosts_for_room_impl room s2 in
  let done := run (change_membership event broadcast_msg do_auth) (start s) in
  (exists dests,
     NoDup dests
     /\ (forall h, h ∈ dests <-> h ∈ joined)
     /\ (federation_handle_new_event (set_destinations dests event), [])
        ∈ trace done.2)
  /\ List.filter is_membership_write (calls done.2)
     = [store_room_member target (user_id event) room (content event) v].
Proof.
  intros Hm Hne Ht Hc Hvi Hvj Hauth Hstate room s2 joined done.
  destruct (change_membership_transition_trace event broadcast_msg do_auth
              s s1 m target v joined Hm Hne Ht Hc Hauth Hstate Hvj)
    as [Hfwd Hwrite].
  - by right.
  - split; [| exact Hwrite].
    exists (list_set joined).
    split; [apply list_set_NoDup |]. split; [| exact Hfwd].
    intros h. apply list_set_elem_of.
Qed.

(** *** Failures of federation and of state reconciliation *)

(** X9.  When federation raises in [send_message] or [send_feedback], the
    error propagates after the event has been persisted: the collaborators
    are left in the state after [persist_event], the notifier is not
    called, and the room lock is released all the same.  [send_message]
    with [suppress_auth] gets there without any authorization check, also
    for an event that would not pass one. *)
Theorem forward_failure_after_persist
        (event : Event) (suppress_auth stamp_event : bool) (s : St)
        (event1 : Event) (s1 : St) (pre : list (Call * list string))
        (err : Error) :
  stamp_step stamp_event event s = (event1, s1, pre) ->
  let room := room_id event in
  let s2 := (persist_event_impl event1 s1).2 in
  let event2 :=
    set_destinations (get_joined_hosts_for_room_impl room s2) event1 in
  federation_handle_new_event_impl event2 s2 = Exn err ->
  (authorized (negb suppress_auth) event1 s1 ->
   run (send_message event suppress_auth stamp_event) (start s)
   = (Raised err,
      mkWorld s2 []
              (pre ++ [(room_lock_lock room, [])]
                   ++ auth_step (negb suppress_auth) event1
                   ++ [(persist_event event1, [room]);
                       (get_joined_hosts_for_room room, [room]);
                       (federation_handle_new_event event2, [room]);
                       (room_lock_release room, [room])])))
  /\ (auth_check_impl event1 s1 = None ->
      run (send_feedback event stamp_event) (start s)
      = (Raised err,
         mkWorld s2 []
                 (pre ++ [(room_lock_lock room, []);
                          (auth_check event1, [room]);
                          (persist_event event1, [room]);
                          (get_joined_hosts_for_room room, [room]);
                          (room_lock_release room, [room]);
                          (federation_handle_new_event event2, [])]))).
Proof.
  intros Hstamp room s2 event2 Hfed. subst room s2 event2.
  unfold stamp_step in Hstamp. split.
  - intros Hauth.
    assert (Hau : suppress_auth = false -> auth_check_impl event1 s1 = None).
    { intros ->. by apply Hauth. }
    destruct stamp_event; cbn.
    + destruct (time_ms_impl s) as [now s']. injection Hstamp as <- <- <-.
      destruct suppress_auth; run_simpl; rewrite ?(Hau eq_refl); run_simpl;
        destruct (persist_event_impl _ s') as [n s2]; run_simpl;
        cbn in Hfed; rewrite Hfed; by run_simpl.
    + injection Hstamp as <- <- <-.
      destruct suppress_auth; run_simpl; rewrite ?(Hau eq_refl); run_simpl;
        destruct (persist_event_impl _ s) as [n s2]; run_simpl;
        cbn in Hfed; rewrite Hfed; by run_simpl.
  - intros Hauth. destruct stamp_event; cbn.
    + destruct (time_ms_impl s) as [now s']. injection Hstamp as <- <- <-.
      run_simpl; rewrite Hauth; run_simpl;
        destruct (persist_event_impl _ s') as [n s2]; run_simpl;
        cbn in Hfed; rewrite Hfed; by run_simpl.
    + injection Hstamp as <- <- <-.
      run_simpl; rewrite Hauth; run_simpl;
        destruct (persist_event_impl _ s) as [n s2]; run_simpl;
        cbn in Hfed; rewrite Hfed; by run_simpl.
Qed.

(** X10.  When federation raises in an ordinary join, the membership row
    stays committed: [change_membership] ends with the federation error in
    the collaborator state after [store_room_member], the notifier is not
    called and, also with [broadcast_msg], no membership message is sent. *)
Theorem join_forward_failure_keeps_row
        (event : Event) (broadcast_msg do_auth : bool) (s s1 : St)
        (target : string) (u : UserID) (err : Error) :
  membership event = Some Membership.JOIN ->
  target_user_id event = Some target ->
  content event !! "membership" = Some (JStr Membership.JOIN) ->
  authorized do_auth event s ->
  ordinary_join s event target ->
  state_handle_new_event_impl event s = Ok s1 ->
  UserID_from_string target = Ok u ->
  let room := room_id event in
  let s2 :=
    (store_room_member_impl target (user_id event) room (content event)
                            (JStr Membership.JOIN) s1).2 in
  let event' :=
    set_destinations
      (list_set (get_joined_hosts_for_room_impl room s2 ++ [domain u]))
      event in
  federation_handle_new_event_impl event' s2 = Exn err ->
  run (change_membership event broadcast_msg do_auth) (start s)
  = (Raised err, mkWorld s2 [] (join_trace do_auth s event target event')).
Proof.
  intros Hm Ht Hc Hauth Hord Hstate Hu room s2 event' Hfed.
  pose proof (change_membership_ordinary_join event broadcast_msg do_auth
                s s1 target u Hm Ht Hc Hauth Hord Hstate Hu) as Hrun.
  cbn zeta in Hrun. fold room s2 event' in Hrun. by rewrite Hfed in Hrun.
Qed.

(** X11.  When state reconciliation raises in a transition other than
    JOIN, [change_membership] ends with that error right away: no
    membership row is stored, nothing is forwarded, the collaborators stay
    as they were and the room lock is released. *)
Theorem reconciliation_failure_stores_nothing
        (event : Event) (broadcast_msg do_auth : bool) (s : St)
        (m : string) (err : Error) :
  membership event = Some m ->
  m <> Membership.JOIN ->
  authorized do_auth event s ->
  state_handle_new_event_impl event s = Exn err ->
  run (change_membership event broadcast_msg do_auth) (start s)
  = (Raised err,
     mkWorld s []
             ([(room_lock_lock (room_id event), [])]
              ++ auth_step do_auth event
              ++ [(state_handle_new_event event, [room_id event]);
                  (room_lock_release (room_id event), [room_id event])])).
Proof.
  intros Hm Hne Hauth Hstate.
  unfold change_membership, auth_step. rewrite Hm. cbn.
  rewrite (string_eqb_false _ _ Hne).
  assert (Hau : do_auth = true -> auth_check_impl event s = None)
    by exact Hauth.
  destruct do_auth; run_simpl; rewrite ?(Hau eq_refl); run_simpl;
    rewrite Hstate; by run_simpl.
Qed.

(** *** The dance and the membership message *)

(** X12.  With [broadcast_msg], the dance is followed by the membership
    message all the same: although no membership row has been written, a
    message of user "_homeserver_" saying that the target user joined the
    room is persisted. *)
Theorem dance_announces_join
        (event : Event) (do_auth : bool) (s s1 s2 s3 : St)
        (target : string) (prev : RoomMember) (inviter : UserID) :
  membership event = Some Membership.JOIN ->
  target_user_id event = Some target ->
  content event !! "membership" = Some (JStr Membership.JOIN) ->
  authorized do_auth event s ->
  dance_condition s event target prev inviter ->
  store_room_impl (room_id event) (UserID_str inviter) false s = Ok s1 ->
  federation_handle_new_event_impl (join_request event inviter) s1 = Ok s2 ->
  federation_get_state_for_room_impl (domain inviter) (room_id event) s2
  = Ok s3 ->
  let issued := calls (run (change_membership event true do_auth) (start s)).2 in
  (exists ev,
     persist_event ev ∈ issued
     /\ room_id ev = room_id event
     /\ user_id ev = "_homeserver_"
     /\ content ev !! "body" = Some (JStr (target +:+ " joined the room.")))
  /\ List.filter is_membership_write issued = [].
Proof.
  intros Hm Ht Hc Hauth Hdance Hstore Hfed Hstate issued.
  pose proof (change_membership_dance event true do_auth s s1 s2 target prev
                inviter Hm Ht Hauth Hdance Hstore Hfed) as Hrun.
  rewrite Hstate in Hrun.
  assert (Htr : trace (run (change_membership event true do_auth) (start s)).2
                = dance_trace do_auth event target inviter
                  ++ trace (run (broadcast_step event true)
                                (mkWorld s3 [] [])).2).
  { rewrite Hrun. by rewrite run_trace_app. }
  subst issued. unfold calls. rewrite Htr, fmap_app. split.
  - assert (Hin : exists ev,
              (persist_event ev, [room_id event])
              ∈ trace (run (broadcast_step event true) (mkWorld s3 [] [])).2
              /\ room_id ev = room_id event
              /\ user_id ev = "_homeserver_"
              /\ content ev !! "body"
                 = Some (JStr (target +:+ " joined the room."))).
    { unfold broadcast_step, getitem. rewrite Ht, Hc.
      unfold _inject_membership_msg. run_simpl.
      destruct (time_ms_impl s3) as [now sa]. run_simpl.
      destruct (time_ms_impl sa) as [now' sb]. run_simpl.
      destruct (persist_event_impl _ sb) as [n sc] eqn:Hpersist. run_simpl.
      match goal with
      | Hp : persist_event_impl ?ev sb = _ |- _ => exists ev
      end.
      split.
      - destruct (federation_handle_new_event_impl _ sc); cbn; set_solver.
      - split; [reflexivity |]. split; [reflexivity |]. cbn.
        rewrite lookup_insert_ne by done.
        rewrite lookup_insert_ne by done. by rewrite lookup_insert_eq. }
    destruct Hin as (ev & Hin & Hprops). exists ev. split; [| exact Hprops].
    rewrite elem_of_app. right.
    change (persist_event ev) with (persist_event ev, [room_id event]).1.
    by apply list_elem_of_fmap_2.
  - rewrite List.filter_app.
    destruct (run_issues _ (broadcast_step event true) (mkWorld s3 [] [])
                (broadcast_step_no_write event true)) as (ext & -> & Hext).
    cbn [trace app]. rewrite (filter_no_write ext Hext).
    unfold dance_trace, auth_step. by destruct do_auth.
Qed.

(** *** Reading path data *)

(** X13.  [get_room_path_data] only reads: it takes no lock, leaves the
    collaborators as they were, asks for the member only when the room
    exists, and reads the path data only when it goes on to return it. *)
Theorem get_room_path_data_only_reads
        (user_id : option string) (room_id path : string)
        (event_type : option string)
        (public_room_rules private_room_rules : option (list string))
        (s : St) :
  let done :=
    run (get_room_path_data user_id room_id path event_type
                            public_room_rules private_room_rules) (start s) in
  env done.2 = s
  /\ trace done.2
     = [(get_room room_id, [])]
       ++ (match get_room_impl room_id s with
           | Some _ => [(get_room_member (lookup_user user_id) room_id, [])]
           | None => []
           end)
       ++ (match done.1 with
           | Returned _ => [(get_path_data path, [])]
           | _ => []
           end).
Proof.
  unfold get_room_path_data, lookup_user. cbn.
  destruct (get_room_impl room_id s) as [room |]; [| done]. cbn.
  destruct (is_public room); cbn.
  - destruct (nonempty (default [] public_room_rules)); cbn; [| done].
    by destruct (state_in _ _).
  - destruct (nonempty (effective_private_rules _ _)); cbn; [| done].
    by destruct (state_in _ _).
Qed.

(** X14.  With the rule lists left at their defaults: in a public room
    [get_room_path_data] returns the stored data to any caller, whatever
    the membership, also to a caller who is not a member or gives no user
    id; in a private room, for an event type other than the room topic, it
    returns the data to members whose membership is "join" and refuses
    everyone else with 403. *)
Theorem get_room_path_data_defaults
        (user_id : option string) (room_id path : string)
        (event_type : option string) (s : St) (room : Room) :
  get_room_impl room_id s = Some room ->
  let outcome :=
    (run (get_room_path_data user_id room_id path event_type None None)
         (start s)).1 in
  (is_public room = true -> outcome = Returned (get_path_data_impl path s))
  /\
  (is_public room = false ->
   event_type <> Some RoomTopicEvent_TYPE ->
   outcome
   = if bool_decide
          (m_membership
             <$> get_room_member_impl (lookup_user user_id) room_id s
           = Some "join")
     then Returned (get_path_data_impl path s)
     else Raised (RoomError 403 "Member does not meet private room rules.")).
Proof.
  intros Hroom outcome. subst outcome.
  rewrite run_get_room_path_data, Hroom. cbn zeta. split.
  - intros ->. reflexivity.
  - intros -> Htopic. unfold effective_private_rules.
    rewrite (bool_decide_eq_false_2 _ Htopic). cbn.
    destruct (get_room_member_impl _ _ s) as [member |]; cbn; [| done].
    destruct (decide (m_membership member = "join")) as [Hj | Hj].
    + rewrite Hj. reflexivity.
    + rewrite (bool_decide_eq_false_2
                 (Some (m_membership member) = Some "join")) by congruence.
      rewrite (bool_decide_eq_false_2 (m_membership member ∈ ["join"]));
        [done |].
      by intros ?%list_elem_of_singleton.
Qed.

(** *** The bound on generated ids *)

Lemma run_generate_room_id_draws (fuel attempts : nat) (user : string)
      (config : gmap string JVal) (w : World St) :
  exists ext,
    trace (run (generate_room_id fuel attempts user config) w).2
    = trace w ++ ext
    /\ (length (List.filter is_random_string ext.*1) <= fuel)%nat.
Proof.
  revert attempts w. induction fuel as [| fuel IH]; intros attempts w.
  - exists []. cbn. by rewrite app_nil_r.
  - cbn [generate_room_id]. destruct (attempts <? 5)%nat.
    2: { exists []. cbn. rewrite app_nil_r. split; [done | lia]. }
    cbn. destruct (random_string_impl 18 (env w)) as [gen s1]. cbn.
    unfold getitem. destruct (config !! "visibility") as [v |]; cbn.
    2: { exists [(random_string 18, held w)]. cbn. split; [done | lia]. }
    destruct (store_room_impl gen user _ s1) as [s2 | err]; cbn.
    + eexists [_; _]. rewrite <- app_assoc. cbn. split; [done | cbn; lia].
    + destruct (is_StoreError err).
      * destruct (IH (Datatypes.S attempts)
                     (mkWorld s1 (held w)
                        ((trace w ++ [(random_string 18, held w)])
                         ++ [(store_room gen user
                                (jval_eqb v (JStr "public")), held w)])))
          as (ext & -> & Hext).
        exists ((random_string 18, held w)
                :: (store_room gen user (jval_eqb v (JStr "public")), held w)
                :: ext).
        cbn. rewrite <- !app_assoc. cbn. split; [done | lia].
      * eexists [_; _]. rewrite <- app_assoc. cbn. split; [done | cbn; lia].
Qed.

(** X18.  Whatever the collaborators answer, [create_room] draws at most
    five random ids, and none at all when a room id is given. *)
Theorem create_room_draws_at_most_five_ids
        (user : string) (room_id : option string) (config : gmap string JVal)
        (s : St) :
  let drawn :=
    length (List.filter is_random_string
              (calls (run (create_room user room_id config) (start s)).2)) in
  (drawn <= 5)%nat /\ (truthy room_id = true -> drawn = 0%nat).
Proof.
  assert (Hrest : forall A (p : Prog A) w,
            issues unchecked p ->
            List.filter is_random_string (trace (run p w).2).*1
            = List.filter is_random_string (trace w).*1).
  { intros A p w Hp. destruct (run_issues _ p w Hp) as (ext & -> & Hext).
    rewrite fmap_app, List.filter_app.
    replace (List.filter is_random_string ext.*1) with (@nil Call);
      [by rewrite app_nil_r |].
    symmetry. clear -Hext. induction Hext as [| x ext [_ Hx] _ IH]; [done |].
    cbn. by rewrite Hx. }
  cbn zeta. unfold calls. split.
  - unfold create_room. rewrite run_bind.
    match goal with
    | |- context [continue_with (run ?p _) _] => set (pick := p)
    end.
    assert (Hpick : (length (List.filter is_random_string
                               (trace (run pick (start s)).2).*1) <= 5)%nat).
    { subst pick. destruct (truthy room_id).
      - rewrite Hrest by compose_issues. cbn. lia.
      - rewrite run_bind.
        destruct (run_generate_room_id_draws 5 0 user config (start s))
          as (ext & Htr & Hext).
        destruct (run (generate_room_id 5 0 user config) (start s))
          as [[rid | e |] w]; cbn [continue_with]; cbn in Htr.
        + destruct (negb (truthy rid)); cbn; by rewrite Htr.
        + cbn. by rewrite Htr.
        + cbn. by rewrite Htr. }
    destruct (run pick (start s)) as [[rid | e |] w];
      cbn [continue_with snd]; try done.
    rewrite Hrest; [done |].
    apply issues_bind; [apply change_membership_unchecked |].
    intros _. constructor.
  - intros Htruthy. rewrite Hrest; [done |].
    unfold create_room. rewrite Htruthy.
    apply issues_bind; [compose_issues |].
    intros rid. cbn zeta.
    apply issues_bind; [apply change_membership_unchecked |].
    intros _. compose_issues.
Qed.

End Properties.

(** * Properties of the reading handlers *)

Section ReaderProperties.
Import Readers.
Context {St : Type} {RC : ReadCollaborators St}.

Lemma checking_refused {A : Type} (q : Query) (f : St -> option Error)
      (k : unit -> M A) (l : Log) (err : Error) :
  f (state l) = Some err ->
  (checking q f ≫= k) l = (Exn err, record q l).
Proof.
  intros Hf. unfold mbind, M_bind, bind, checking. by rewrite Hf.
Qed.

Lemma checking_passed {A : Type} (q : Query) (f : St -> option Error)
      (k : unit -> M A) (l : Log) :
  f (state l) = None ->
  (checking q f ≫= k) l = k tt (record q l).
Proof.
  intros Hf. unfold mbind, M_bind, bind, checking. by rewrite Hf.
Qed.

(** X15.  The five reading handlers check the requester's membership
    first: when [check_joined_room] raises for the room and the requesting
    user, each of them raises that error with the store not queried at
    all.  The user checked is the requester ([user_id], [auth_user_id]),
    not the sender or member asked about. *)
Theorem readers_check_membership_first
        (room_id user_id : option string) (s : St) (err : Error) :
  check_joined_room_impl room_id user_id s = Some err ->
  let refused {A : Type} (m : M A) :=
    m (fresh s) = (Exn err, mkLog s [check_joined_room room_id user_id]) in
  (forall msg_id sender_id,
     refused (get_message msg_id room_id sender_id user_id))
  /\ (forall config feedback,
        refused (get_messages user_id room_id config feedback))
  /\ (forall msg_sender_id msg_id fb_sender_id fb_type,
        refused (get_feedback room_id msg_sender_id msg_id user_id
                              fb_sender_id fb_type))
  /\ (forall limit start_tok end_tok,
        refused (get_room_members room_id user_id limit start_tok end_tok))
  /\ (forall room auth_user member_user,
        room_id = Some room -> user_id = Some auth_user ->
        refused (get_room_member room member_user auth_user)).
Proof.
  intros Hcheck refused. subst refused. cbn beta.
  repeat split; intros.
  - unfold get_message. by rewrite (checking_refused _ _ _ _ err).
  - unfold get_messages. by rewrite (checking_refused _ _ _ _ err).
  - unfold get_feedback. by rewrite (checking_refused _ _ _ _ err).
  - unfold get_room_members. by rewrite (checking_refused _ _ _ _ err).
  - subst. unfold get_room_member. by rewrite (checking_refused _ _ _ _ err).
Qed.

(** X16.  [store_room_path_data] authorizes before anything else: when
    [auth.check] raises, nothing is stored and the event is not even
    stamped (the clock is not read).  When it passes and [stamp_event] is
    set, what is stored under the path is the dump of the content with the
    freshly read [hsob_ts]. *)
Theorem store_room_path_data_authorizes_first
        (event : Event) (path : string) (stamp_event : bool) (s : St) :
  (forall err,
     check_impl event s = Some err ->
     store_room_path_data event path stamp_event (fresh s)
     = (Exn err, mkLog s [check event]))
  /\
  (check_impl event s = None ->
   let now := (clock_impl s).1 in
   let s1 := (clock_impl s).2 in
   let content := json_dumps (<["hsob_ts" := JInt now]> (content event)) in
   store_room_path_data event path true (fresh s)
   = (Ok tt,
      mkLog (store_path_data_impl (room_id event) path content s1)
            [check event; time;
             store_store_path_data (room_id event) path content])).
Proof.
  split.
  - intros err Hcheck. unfold store_room_path_data.
    by rewrite (checking_refused _ _ _ _ err).
  - intros Hcheck now s1 content0. subst now s1 content0.
    unfold store_room_path_data. rewrite checking_passed by done.
    unfold stamp, writing, mbind, M_bind, bind, mret, M_ret, ret, record,
      fresh. cbn.
    by destruct (clock_impl s).
Qed.

(** X17.  [get_room_members] does not paginate: for a requester who is
    let through, it returns all the members the store has for the room,
    converted to events, in one chunk marked "START" and "END", whatever
    [limit] and the two tokens are. *)
Theorem get_room_members_returns_all
        (room_id user_id : option string) (limit : Z)
        (start_tok end_tok : option string) (s : St) :
  check_joined_room_impl room_id user_id s = None ->
  get_room_members room_id user_id limit start_tok end_tok (fresh s)
  = (Ok (mkMemberChunk "START" "END"
                       (to_events (get_room_members_impl room_id s))),
     mkLog s [check_joined_room room_id user_id;
              store_get_room_members room_id]).
Proof.
  intros Hcheck. unfold get_room_members.
  by rewrite checking_passed.
Qed.

End ReaderProperties.

(** * The properties on the concrete deployment *)

Import Fixture.
#[local] Existing Instance collab.
#[local] Existing Instance ext.

Ltac by_computation := vm_compute; reflexivity.

Lemma dance_issues_one_join_request_witness :
  let issued :=
    calls (run (change_membership (member_event far bob bob "join") true true)
               (start invited_db)).2 in
  List.filter is_join_request issued
  = [federation_handle_new_event
       (join_request (member_event far bob bob "join") alice_id)]
  /\ destinations (join_request (member_event far bob bob "join") alice_id)
     = ["far.example"]
  /\ List.filter is_state_fetch issued
     = [federation_get_state_for_room "far.example" far]
  /\ List.filter is_membership_write issued = [].
Proof.
  eapply (dance_issues_one_join_request
            (member_event far bob bob "join") true true invited_db).
  - by_computation.
  - by_computation.
  - intros _. by_computation.
  - constructor; by_computation.
  - by_computation.
  - by_computation.
  - vm_compute. discriminate.
Defined.

Lemma dance_io_after_lock_release_witness :
  let event := member_event far bob bob "join" in
  exists rest,
    trace (run (change_membership event false true) (start invited_db)).2
    = [(room_lock_lock far, [])]
      ++ auth_step true event
      ++ [(get_room_member bob far, [far]);
          (get_room far, [far]);
          (room_lock_release far, [far]);
          (store_room far (UserID_str alice_id) false, []);
          (federation_handle_new_event (join_request event alice_id), []);
          (federation_get_state_for_room "far.example" far, [])]
      ++ rest
    /\ (false = false -> rest = []).
Proof.
  eapply (dance_io_after_lock_release
            (member_event far bob bob "join") false true invited_db).
  - by_computation.
  - by_computation.
  - intros _. by_computation.
  - constructor; by_computation.
  - by_computation.
  - by_computation.
Defined.

Lemma ordinary_join_commits_membership_witness :
  let event := member_event den Outage.dave Outage.dave "join" in
  let done :=
    run (CO:=Outage.lagging) (change_membership event false true)
        (start den_db) in
  List.filter is_membership_write (calls done.2)
  = [store_room_member Outage.dave Outage.dave den (content event)
                       (JStr "join")]
  /\ exists dests,
       NoDup dests
       /\ "here.example" ∈ dests
       /\ "far.example" ∈ dests
       /\ federation_handle_new_event (set_destinations dests event)
          ∈ calls done.2.
Proof.
  intros event done.
  assert (Hcontent : content event !! "membership"
                     = Some (JStr Membership.JOIN)) by by_computation.
  assert (Hauth : authorized (CO:=Outage.lagging) true event den_db)
    by (intros _; by_computation).
  assert (Hord : ordinary_join (CO:=Outage.lagging) den_db event Outage.dave).
  { apply not_invited. vm_compute. discriminate. }
  assert (Hstate : state_handle_new_event_impl (Collaborators:=Outage.lagging)
                     event den_db = Ok den_db) by by_computation.
  assert (Hdave : UserID_from_string Outage.dave
                  = Ok (mkUserID "dave" "far.example" false))
    by by_computation.
  destruct (ordinary_join_commits_membership
              (CO:=Outage.lagging) event false true den_db den_db
              Outage.dave _ eq_refl eq_refl Hcontent Hauth Hord Hstate Hdave)
    as (Hwrite & dests & Hnodup & Helem & Hforward & _).
  split; [exact Hwrite |].
  exists dests. split; [exact Hnodup |]. split; [| split; [| exact Hforward]].
  - apply Helem. left. vm_compute. apply list_elem_of_here.
  - apply Helem. right. reflexivity.
Defined.

Lemma create_room_bounded_retry_witness :
  (run (create_room carol None public_config) (start (crowded_db 4))).1
  = Returned "eeeeeeeeeeeeeeeeee".
Proof.
  assert (Hcol : collides carol (jval_eqb (JStr "public") (JStr "public")) 4
                   (crowded_db 4)
                   (mkDb (taken_rooms 4) ∅ ∅ ∅ 0 1000 4 [])
                   [(random_string 18, []);
                    (store_room "aaaaaaaaaaaaaaaaaa" carol true, []);
                    (random_string 18, []);
                    (store_room "bbbbbbbbbbbbbbbbbb" carol true, []);
                    (random_string 18, []);
                    (store_room "cccccccccccccccccc" carol true, []);
                    (random_string 18, []);
                    (store_room "dddddddddddddddddd" carol true, [])]).
  { repeat (eapply collides_S; [by_computation | by_computation |]).
    apply collides_O. }
  assert (Hvis : public_config !! "visibility" = Some (JStr "public"))
    by by_computation.
  destruct (create_room_bounded_retry carol None public_config
              (JStr "public") 4 (crowded_db 4) _ _ eq_refl Hvis Hcol)
    as [Hok _].
  pose (s2 := mkDb (taken_rooms 4) ∅ ∅ ∅ 0 1000 5 []).
  pose (s3 := mkDb (<["eeeeeeeeeeeeeeeeee" :=
                       mkRoom "eeeeeeeeeeeeeeeeee" true carol]> (taken_rooms 4))
                   ∅ ∅ ∅ 0 1000 5 []).
  assert (Hgen : random_string_impl 18
                   (mkDb (taken_rooms 4) ∅ ∅ ∅ 0 1000 4 [])
                 = ("eeeeeeeeeeeeeeeeee", s2)) by by_computation.
  assert (Hstore : store_room_impl "eeeeeeeeeeeeeeeeee" carol
                     (jval_eqb (JStr "public") (JStr "public")) s2 = Ok s3)
    by by_computation.
  assert (Hlt : (4 < 5)%nat) by lia.
  refine (eq_trans
            (f_equal fst (Hok Hlt "eeeeeeeeeeeeeeeeee" s2 s3 Hgen Hstore)) _).
  by_computation.
Defined.

Lemma get_room_path_data_topic_private_witness :
  (run (get_room_path_data (Some bob) den "topic" (Some RoomTopicEvent_TYPE)
                           None (Some ["join"]))
       (start den_db)).1
  = Returned (Some (JStr "Welcome")).
Proof.
  assert (Hroom : get_room_impl den den_db = Some (mkRoom den false carol))
    by by_computation.
  assert (Hmember : get_room_member_impl (lookup_user (Some bob)) den den_db
                    = Some (mkRoomMember bob den "invite" carol ∅))
    by by_computation.
  destruct (get_room_path_data_topic_private (Some bob) den "topic" None
              (Some ["join"]) den_db _ _ Hroom eq_refl Hmember)
    as (_ & Hinvited & _).
  refine (eq_trans (Hinvited eq_refl) _). by_computation.
Defined.

Lemma forwarding_lock_asymmetry_witness :
  let event := message_event den carol "hi" in
  let event1 :=
    set_content (<["hsob_ts" := JInt 1000]> (content event)) event in
  let event2 := set_destinations ["here.example"] event1 in
  trace (run (send_feedback event true) (start den_db)).2
  = [(time_ms, []);
     (room_lock_lock den, []);
     (auth_check event1, [den]);
     (persist_event event1, [den]);
     (get_joined_hosts_for_room den, [den]);
     (room_lock_release den, [den]);
     (federation_handle_new_event event2, []);
     (notifier_on_new_event event2 7, [])]
  /\ trace (run (send_message event false true) (start den_db)).2
     = [(time_ms, []);
        (room_lock_lock den, []);
        (auth_check event1, [den]);
        (persist_event event1, [den]);
        (get_joined_hosts_for_room den, [den]);
        (federation_handle_new_event event2, [den]);
        (notifier_on_new_event event2 7, [den]);
        (room_lock_release den, [den])].
Proof.
  intros event event1 event2.
  assert (Hstamp : stamp_step true event den_db
                   = (event1, (db_tick den_db).2, [(time_ms, [])]))
    by by_computation.
  destruct (forwarding_lock_asymmetry event false true den_db _ _ _ Hstamp)
    as [Hfeedback Hmessage].
  split.
  - refine (eq_trans (Hfeedback event2 _) _); by_computation.
  - refine (eq_trans (Hmessage event2 _) _); by_computation.
Defined.

Lemma auth_failure_aborts_before_mutation_witness :
  let event := message_event den "@mallory:here.example" "hi" in
  let invite := member_event den "@mallory:here.example" bob "invite" in
  (run (send_message event false true) (start den_db)).1
  = Raised (AuthError 403 "Forbidden")
  /\ (run (change_membership invite true true) (start den_db)).1
     = Raised (AuthError 403 "Forbidden").
Proof.
  intros event invite.
  destruct (auth_failure_aborts_before_mutation event true true den_db
              (AuthError 403 "Forbidden")) as [Hsend _].
  destruct (auth_failure_aborts_before_mutation invite true true den_db
              (AuthError 403 "Forbidden")) as [_ Hchange].
  split.
  - refine (eq_trans
              (f_equal fst
                 (Hsend (set_content (<["hsob_ts" := JInt 1000]> (content event))
                                     event)
                        (db_tick den_db).2 [(time_ms, [])] _ _)) _);
      by_computation.
  - refine (eq_trans (f_equal fst (Hchange _ _)) _);
      [by eexists | by_computation | by_computation].
Defined.

Lemma unknown_membership_is_fatal_witness :
  (run (change_membership (member_event den carol bob "banana") true true)
       (start den_db)).1
  = Raised (RoomError 500 "Unknown membership value banana").
Proof.
  pose (event := member_event den carol bob "banana").
  assert (Hv : ~ recognized (JStr "banana")).
  { intros [Hv | [Hv | Hv]]; discriminate Hv. }
  assert (Hcontent : content event !! "membership" = Some (JStr "banana"))
    by by_computation.
  assert (Hauth : authorized true event den_db)
    by (intros _; by_computation).
  assert (Hstate : state_handle_new_event_impl event den_db = Ok den_db)
    by by_computation.
  destruct (unknown_membership_is_fatal event true den_db den_db den carol bob
              "banana" (JStr "banana")) as (_ & _ & Hfatal).
  refine (eq_trans
            (f_equal fst
               (Hfatal Hv eq_refl ltac:(discriminate) eq_refl Hcontent Hauth
                       Hstate _ _)) _);
    by_computation.
Defined.


Lemma get_room_path_data_rule_table_witness :
  (run (get_room_path_data (Some bob) den "topic" None None
                           (Some ["invite"]))
       (start den_db)).1
  = Returned (Some (JStr "Welcome"))
  /\ (run (get_room_path_data (Some carol) den "topic" None None
                              (Some ["invite"]))
          (start den_db)).1
     = Raised (RoomError 403 "Member does not meet private room rules.").
Proof.
  assert (Hroom : get_room_impl den den_db = Some (mkRoom den false carol))
    by by_computation.
  assert (Htype : (None : option string) <> Some RoomTopicEvent_TYPE)
    by discriminate.
  pose proof (get_room_path_data_rule_table (Some bob) den "topic" None None
                (Some ["invite"]) den_db) as Hbob.
  pose proof (get_room_path_data_rule_table (Some carol) den "topic" None None
                (Some ["invite"]) den_db) as Hcarol.
  cbv zeta beta in Hbob, Hcarol.
  destruct Hbob as (_ & _ & Hbob & _).
  destruct (Hbob _ Hroom eq_refl Htype) as [Hgiven _].
  destruct Hcarol as (_ & _ & Hcarol & _).
  destruct (Hcarol _ Hroom eq_refl Htype) as [_ Hrefused].
  split.
  - refine (eq_trans (Hgiven _) _); [| by_computation].
    right. exists "invite". split; [by_computation | apply list_elem_of_here].
  - apply Hrefused. intros [Hnil | (m & Hm & Hin)]; [discriminate Hnil |].
    vm_compute in Hm. injection Hm as <-.
    apply list_elem_of_singleton in Hin. discriminate Hin.
Defined.

(** ** Further properties on the concrete deployment *)

Lemma handlers_release_lock_witness :
  (run (create_room carol None public_config) (start (crowded_db 4))).1
  <> Deadlock
  /\ held (run (create_room carol None public_config)
               (start (crowded_db 4))).2 = [].
Proof.
  apply handlers_release_lock. constructor.
Defined.

Lemma pool_never_deadlocks_witness :
  exists i, is_Some (step i busy_pool).
Proof.
  assert (Hreach : reachable fresh_pool busy_pool).
  { unfold busy_pool.
    destruct (run_schedule [0%nat; 0%nat] fresh_pool) as [p |] eqn:Hrun.
    - by apply run_schedule_reachable in Hrun.
    - constructor. }
  assert (Hfresh : Forall (fun t => invocation (task_prog t)
                                    /\ task_held t = []) (tasks fresh_pool)).
  { repeat constructor. }
  assert (Hpending : pending busy_pool 1 = Some (room_lock_lock den))
    by by_computation.
  apply (pool_never_deadlocks fresh_pool busy_pool Hfresh Hreach).
  exists 1%nat, (room_lock_lock den). exact Hpending.
Defined.

Lemma create_room_explicit_id_witness :
  (run (create_room carol (Some den) public_config) (start den_db)).1
  = Raised (StoreError 409 "Room already exists").
Proof.
  assert (Hrid : den <> "") by discriminate.
  assert (Hvis : public_config !! "visibility" = Some (JStr "public"))
    by by_computation.
  assert (Hstore : store_room_impl den carol
                     (jval_eqb (JStr "public") (JStr "public")) den_db
                   = Exn (StoreError 409 "Room already exists"))
    by by_computation.
  destruct (create_room_explicit_id carol den public_config (JStr "public")
              den_db Hrid Hvis) as [Hraise _].
  exact (f_equal fst (Hraise _ Hstore)).
Defined.

Lemma create_room_without_visibility_witness :
  (run (create_room carol (Some den) ∅) (start den_db)).1
  = Raised (KeyError "visibility").
Proof.
  assert (Hvis : (∅ : gmap string JVal) !! "visibility" = None)
    by by_computation.
  exact (f_equal fst
           (create_room_without_visibility carol (Some den) ∅ den_db Hvis)).
Defined.

Lemma create_room_retries_store_errors_only_witness :
  (run (CO:=Outage.no_store) (create_room carol None public_config)
       (start den_db)).1
  = Raised (OtherError "database is locked").
Proof.
  assert (Hvis : public_config !! "visibility" = Some (JStr "public"))
    by by_computation.
  assert (Hgen : random_string_impl (Collaborators:=Outage.no_store) 18 den_db
                 = ("aaaaaaaaaaaaaaaaaa", (db_random 18 den_db).2))
    by by_computation.
  assert (Hstore : store_room_impl (Collaborators:=Outage.no_store)
                     "aaaaaaaaaaaaaaaaaa" carol
                     (jval_eqb (JStr "public") (JStr "public"))
                     (db_random 18 den_db).2
                   = Exn (OtherError "database is locked"))
    by by_computation.
  exact (f_equal fst
           (create_room_retries_store_errors_only
              (CO:=Outage.no_store) carol None public_config (JStr "public")
              den_db _ _ _ eq_refl Hvis Hgen Hstore eq_refl)).
Defined.

Lemma invite_reaches_invited_server_witness :
  exists dests,
    NoDup dests
    /\ "here.example" ∈ dests
    /\ "far.example" ∈ dests
    /\ (federation_handle_new_event
          (set_destinations dests
             (member_event den carol Outage.erin "invite")), [])
       ∈ trace (run (change_membership
                       (member_event den carol Outage.erin "invite")
                       false true)
                    (start den_db)).2.
Proof.
  pose (event := member_event den carol Outage.erin "invite").
  assert (Hm : "invite" <> Membership.JOIN) by discriminate.
  assert (Hcontent : content event !! "membership"
                     = Some (JStr Membership.INVITE)) by by_computation.
  assert (Hauth : authorized true event den_db)
    by (intros _; by_computation).
  assert (Hstate : state_handle_new_event_impl event den_db = Ok den_db)
    by by_computation.
  assert (Herin : UserID_from_string Outage.erin
                  = Ok (mkUserID "erin" "far.example" false))
    by by_computation.
  destruct (invite_reaches_invited_server event false true den_db den_db
              "invite" Outage.erin _ eq_refl Hm eq_refl Hcontent Hauth Hstate
              Herin) as ((dests & Hnodup & Helem & Hforward) & _).
  exists dests. split; [exact Hnodup |]. split; [| split; [| exact Hforward]].
  - apply Helem. left. vm_compute. apply list_elem_of_here.
  - apply Helem. right. reflexivity.
Defined.

Lemma leave_goes_to_joined_hosts_only_witness :
  exists dests,
    "here.example" ∈ dests
    /\ ("far.example" ∉ dests)
    /\ (federation_handle_new_event
          (set_destinations dests
             (member_event den Outage.dave Outage.dave "leave")), [])
       ∈ trace (run (change_membership
                       (member_event den Outage.dave Outage.dave "leave")
                       false true)
                    (start den_db)).2.
Proof.
  pose (event := member_event den Outage.dave Outage.dave "leave").
  assert (Hm : "leave" <> Membership.JOIN) by discriminate.
  assert (Hcontent : content event !! "membership" = Some (JStr "leave"))
    by by_computation.
  assert (Hinvite : JStr "leave" <> JStr Membership.INVITE) by discriminate.
  assert (Hjoin : JStr "leave" <> JStr Membership.JOIN) by discriminate.
  assert (Hauth : authorized true event den_db)
    by (intros _; by_computation).
  assert (Hstate : state_handle_new_event_impl event den_db = Ok den_db)
    by by_computation.
  destruct (leave_goes_to_joined_hosts_only event false true den_db den_db
              "leave" Outage.dave (JStr "leave") eq_refl Hm eq_refl Hcontent
              Hinvite Hjoin Hauth Hstate)
    as ((dests & Hnodup & Helem & Hforward) & _).
  exists dests. split; [| split; [| exact Hforward]].
  - apply Helem. vm_compute. apply list_elem_of_here.
  - intros Hin. apply Helem in Hin. vm_compute in Hin.
    apply list_elem_of_singleton in Hin. discriminate Hin.
Defined.

Lemma forward_failure_after_persist_witness :
  let event := message_event den Outage.mallory "hi" in
  let done :=
    run (CO:=Outage.no_federation) (send_message event true true)
        (start den_db) in
  done.1 = Raised (OtherError "unreachable")
  /\ db_next_id (env done.2) = 8%nat.
Proof.
  intros event done.
  pose (event1 :=
          set_content (<["hsob_ts" := JInt 1000]> (content event)) event).
  assert (Hstamp : stamp_step (CO:=Outage.no_federation) true event den_db
                   = (event1, (db_tick den_db).2, [(time_ms, [])]))
    by by_computation.
  assert (Hauth : authorized (CO:=Outage.no_federation) (negb true) event1
                             (db_tick den_db).2).
  { intros Hchecked. discriminate Hchecked. }
  destruct (forward_failure_after_persist
              (CO:=Outage.no_federation) event true true den_db _ _ _
              (OtherError "unreachable") Hstamp eq_refl)
    as [Hmessage _].
  split.
  - exact (f_equal fst (Hmessage Hauth)).
  - refine (eq_trans
              (f_equal (fun r => db_next_id (env r.2)) (Hmessage Hauth)) _).
    by_computation.
Defined.

Lemma join_forward_failure_keeps_row_witness :
  let done :=
    run (CO:=Outage.no_federation)
        (change_membership (member_event den bob bob "join") true true)
        (start den_db) in
  done.1 = Raised (OtherError "unreachable")
  /\ m_membership <$> db_members (env done.2) !! (den, bob) = Some "join".
Proof.
  pose (event := member_event den bob bob "join").
  assert (Hcontent : content event !! "membership"
                     = Some (JStr Membership.JOIN)) by by_computation.
  assert (Hauth : authorized (CO:=Outage.no_federation) true event den_db)
    by (intros _; by_computation).
  assert (Hord : ordinary_join (CO:=Outage.no_federation) den_db event bob)
    by (eapply (room_known (CO:=Outage.no_federation) den_db event bob);
        by_computation).
  assert (Hstate : state_handle_new_event_impl
                     (Collaborators:=Outage.no_federation) event den_db
                   = Ok den_db) by by_computation.
  assert (Hbob : UserID_from_string bob
                 = Ok (mkUserID "bob" "here.example" true))
    by by_computation.
  pose proof (join_forward_failure_keeps_row
                (CO:=Outage.no_federation) event true true den_db den_db bob _
                (OtherError "unreachable") eq_refl eq_refl Hcontent Hauth Hord
                Hstate Hbob eq_refl) as Hrun.
  split.
  - exact (f_equal fst Hrun).
  - refine (eq_trans
              (f_equal (fun r => m_membership
                                   <$> db_members (env r.2) !! (den, bob))
                       Hrun) _).
    by_computation.
Defined.

Lemma reconciliation_failure_stores_nothing_witness :
  let done :=
    run (CO:=Outage.no_state)
        (change_membership (member_event den carol Outage.erin "invite")
                           true true)
        (start den_db) in
  done.1 = Raised (OtherError "state conflict") /\ env done.2 = den_db.
Proof.
  pose (event := member_event den carol Outage.erin "invite").
  assert (Hm : "invite" <> Membership.JOIN) by discriminate.
  assert (Hauth : authorized (CO:=Outage.no_state) true event den_db)
    by (intros _; by_computation).
  pose proof (reconciliation_failure_stores_nothing
                (CO:=Outage.no_state) event true true den_db "invite"
                (OtherError "state conflict") eq_refl Hm Hauth eq_refl)
    as Hrun.
  split.
  - exact (f_equal fst Hrun).
  - exact (f_equal (fun r => env r.2) Hrun).
Defined.

Lemma dance_announces_join_witness :
  let event := member_event far bob bob "join" in
  let issued :=
    calls (run (change_membership event true true) (start invited_db)).2 in
  (exists ev,
     persist_event ev ∈ issued
     /\ room_id ev = room_id event
     /\ user_id ev = "_homeserver_"
     /\ content ev !! "body" = Some (JStr (bob +:+ " joined the room.")))
  /\ List.filter is_membership_write issued = [].
Proof.
  eapply (dance_announces_join
            (member_event far bob bob "join") true invited_db).
  - by_computation.
  - by_computation.
  - by_computation.
  - intros _. by_computation.
  - constructor; by_computation.
  - by_computation.
  - by_computation.
  - by_computation.
Defined.

Lemma get_room_path_data_defaults_witness :
  (run (get_room_path_data (Some carol) den "topic" None None None)
       (start den_db)).1
  = Returned (Some (JStr "Welcome"))
  /\ (run (get_room_path_data (Some bob) den "topic" None None None)
          (start den_db)).1
     = Raised (RoomError 403 "Member does not meet private room rules.").
Proof.
  assert (Hroom : get_room_impl den den_db = Some (mkRoom den false carol))
    by by_computation.
  assert (Htype : (None : option string) <> Some RoomTopicEvent_TYPE)
    by discriminate.
  destruct (get_room_path_data_defaults (Some carol) den "topic" None den_db
              _ Hroom) as [_ Hcarol].
  destruct (get_room_path_data_defaults (Some bob) den "topic" None den_db
              _ Hroom) as [_ Hbob].
  split.
  - refine (eq_trans (Hcarol eq_refl Htype) _). by_computation.
  - refine (eq_trans (Hbob eq_refl Htype) _). by_computation.
Defined.

#[local] Existing Instance ReaderFixture.readers.

Lemma readers_check_membership_first_witness :
  Readers.get_room_member den carol bob (Readers.fresh den_db)
  = (Exn (AuthError 403 "User not in room."),
     Readers.mkLog den_db [Readers.check_joined_room (Some den) (Some bob)]).
Proof.
  assert (Hcheck : Readers.check_joined_room_impl (Some den) (Some bob) den_db
                   = Some (AuthError 403 "User not in room."))
    by by_computation.
  pose proof (readers_check_membership_first (Some den) (Some bob) den_db _
                Hcheck) as Hall.
  cbv zeta in Hall. destruct Hall as (_ & _ & _ & _ & Hmember).
  exact (Hmember den bob carol eq_refl eq_refl).
Defined.

Lemma store_room_path_data_authorizes_first_witness :
  let event := message_event den Outage.mallory "hi" in
  Readers.store_room_path_data event "topic" true (Readers.fresh den_db)
  = (Exn (AuthError 403 "Forbidden"),
     Readers.mkLog den_db [Readers.check event]).
Proof.
  intros event.
  assert (Hcheck : Readers.check_impl event den_db
                   = Some (AuthError 403 "Forbidden")) by by_computation.
  destruct (store_room_path_data_authorizes_first event "topic" true den_db)
    as [Hdenied _].
  exact (Hdenied _ Hcheck).
Defined.

Lemma get_room_members_returns_all_witness :
  exists members,
    (Readers.get_room_members (Some den) (Some carol) 1 None None
                              (Readers.fresh den_db)).1
    = Ok members
    /\ length (Readers.chunk members) = 3%nat.
Proof.
  assert (Hcheck : Readers.check_joined_room_impl (Some den) (Some carol)
                     den_db = None) by by_computation.
  eexists. split.
  - exact (f_equal fst
             (get_room_members_returns_all (Some den) (Some carol) 1 None None
                                           den_db Hcheck)).
  - by_computation.
Defined.
